(** * RexBot reception server: call routing and signaling relay

    A shallow embedding of the Socket.IO event handlers of the RexBot server
    (the connection handler with its [connectedUsers] and [waitingCalls]
    maps, the Mongoose [Call] model and the [/api/calls/waiting] route),
    followed by the properties of the call life cycle proved about it.

    Conventions of the embedding:
    - a handler runs to completion on a server state and returns the new
      state together with the list of events it emitted, in emission order;
    - a [Date] is its number of milliseconds since the epoch; every clock
      read of one handler run returns the same instant, [now];
    - a JavaScript [Map] is an association list in insertion order with
      unique keys;
    - a MongoDB collection is the list of its documents in insertion order;
      [_id] values are kept in the form [toString()] gives them;
    - a query or a [save()] fails for a reason the code or a schema gives
      (a cast, a validator, a unique index) or, where a client reaches the
      code while the server runs without MongoDB, because there is no
      connection: start-conversation asks for [readyState] itself and has
      both of its branches; staff-login, [generateResponse] and
      [authenticateToken] throw at their first query.  accept-call,
      call-decision and chat-message work on documents an earlier handler
      has stored and are modelled with MongoDB answering;
    - an accept-call or call-decision that carries no payload, or a payload
      without [callId], is an event of its own. *)

From Stdlib Require Import String Ascii ZArith NArith List Bool Lia.
From Stdlib Require Import DecimalString Permutation Sorted.
Import ListNotations.
Local Open Scope Z_scope.
Local Open Scope string_scope.

(** ** Identifiers *)

Definition SocketId := string.
Definition Id := string.
Definition Date := Z.

Fixpoint string_forallb (p : ascii -> bool) (s : string) : bool :=
  match s with
  | EmptyString => true
  | String c s' => p c && string_forallb p s'
  end.

Fixpoint string_map (f : ascii -> ascii) (s : string) : string :=
  match s with
  | EmptyString => EmptyString
  | String c s' => String (f c) (string_map f s')
  end.

(** One character of [/^[0-9a-fA-F]{24}$/], the test the driver's ObjectId
    applies to a string. *)
Definition isHexDigit (c : ascii) : bool :=
  let n := N_of_ascii c in
  ((48 <=? n) && (n <=? 57) || (97 <=? n) && (n <=? 102)
   || (65 <=? n) && (n <=? 70))%N.

Definition toLowerHex (c : ascii) : ascii :=
  let n := N_of_ascii c in
  if ((65 <=? n) && (n <=? 70))%N then ascii_of_N (n + 32) else c.

(** Mongoose's cast of a query value to an ObjectId: a string of 24 hex
    digits of either case denotes the id whose [toString()] is the lower-case
    string; any other string is a CastError ([None]). *)
Definition castObjectId (s : string) : option Id :=
  if (String.length s =? 24)%nat && string_forallb isHexDigit s
  then Some (string_map toLowerHex s)
  else None.

Definition hexChar (n : N) : ascii :=
  if (n <? 10)%N then ascii_of_N (48 + n) else ascii_of_N (87 + n).

Fixpoint hexDigits (k : nat) (n : N) (acc : string) : string :=
  match k with
  | O => acc
  | S k' => hexDigits k' (n / 16)%N (String (hexChar (n mod 16)%N) acc)
  end.

(** The [_id] a [new Model(...)] receives: the driver's generator is stood
    for by a counter kept in the server state. *)
Definition newObjectId (n : N) : Id := hexDigits 24 n "".

(** Template-literal rendering of [Date.now()]. *)
Definition decimal (z : Z) : string := NilZero.string_of_int (Z.to_int z).

(** ** JavaScript [Map] with string keys *)

Module JsMap.
Section Ops.
Context {V : Type}.

Definition t := list (string * V).

Fixpoint get (k : string) (m : list (string * V)) : option V :=
  match m with
  | [] => None
  | (k', v) :: m' => if k =? k' then Some v else get k m'
  end.

(** [set] keeps the position of a key that is already present. *)
Fixpoint set (k : string) (v : V) (m : list (string * V))
  : list (string * V) :=
  match m with
  | [] => [(k, v)]
  | (k', v') :: m' =>
      if k =? k' then (k, v) :: m' else (k', v') :: set k v m'
  end.

Fixpoint delete (k : string) (m : list (string * V)) : list (string * V) :=
  match m with
  | [] => []
  | (k', v') :: m' =>
      if k =? k' then delete k m' else (k', v') :: delete k m'
  end.

(** [Array.from(m.entries()).find(([id, v]) => p v)?.[0]] *)
Fixpoint findKey (p : V -> bool) (m : list (string * V)) : option string :=
  match m with
  | [] => None
  | (k, v) :: m' => if p v then Some k else findKey p m'
  end.
End Ops.
Arguments t : clear implicits.
End JsMap.

(** ** Documents *)

(** Modelled from the spec: [models/User] is not among the sources; the
    record keeps the fields the server reads and writes on a user document
    (identity, role and staff profile of a connection).  A field the object
    lacks is [None]; an absent [isAvailable] reads as [false]. *)
Module User.
Record t := mk {
  _id : Id;
  name : string;
  email : string;
  password : option string;
  role : string;
  department : option string;
  isAvailable : bool;
  lastActive : option Date
}.
End User.

Inductive CallStatus := Waiting | InProgress | Completed | Rejected.
Inductive CallType := Video | Audio.
Inductive Decision := DAccepted | DRejected | DPending.

Module Call.
Record t := mk {
  _id : Id;
  clientId : Id;
  staffId : option Id;
  status : CallStatus;
  callType : CallType;
  purpose : string;
  description : option string;
  startTime : option Date;
  endTime : option Date;
  duration : option Z;
  decision : Decision;
  notes : option string;
  createdAt : Date;
  updatedAt : Date
}.
End Call.

Inductive Sender := SUser | SRexbot | SStaff | SSystem.
Inductive MessageType := MText | MSpeech | MSystem.

Record Message := mkMessage {
  sender : Sender;
  content : string;
  messageType : MessageType
}.

Module Conversation.
Record t := mk {
  userId : Id;
  sessionId : string;
  messages : list Message
}.
End Conversation.

(** The object literal the demo branch stores in [demoCalls]. *)
Module DemoCall.
Record t := mk {
  _id : Id;
  clientId : Id;
  purpose : option string;
  status : CallStatus;
  createdAt : Date
}.
End DemoCall.

(** ** Server state *)

(** The module-level maps of the server, the three collections behind the
    models, the set of connected sockets kept by Socket.IO, the connection
    state of Mongoose and the ObjectId generator. *)
Record Server := mkServer {
  sockets : list SocketId;
  connectedUsers : JsMap.t User.t;
  waitingCalls : JsMap.t Call.t;
  demoUsers : JsMap.t User.t;
  demoConversations : JsMap.t Conversation.t;
  demoCalls : JsMap.t DemoCall.t;
  users : list User.t;
  conversations : list Conversation.t;
  calls : list Call.t;
  readyState : Z;
  nextOid : N
}.

Definition set_sockets (x : list SocketId) (s : Server) : Server :=
  mkServer x (connectedUsers s) (waitingCalls s) (demoUsers s)
    (demoConversations s) (demoCalls s) (users s) (conversations s) (calls s)
    (readyState s) (nextOid s).

Definition set_connectedUsers (x : JsMap.t User.t) (s : Server) : Server :=
  mkServer (sockets s) x (waitingCalls s) (demoUsers s)
    (demoConversations s) (demoCalls s) (users s) (conversations s) (calls s)
    (readyState s) (nextOid s).

Definition set_waitingCalls (x : JsMap.t Call.t) (s : Server) : Server :=
  mkServer (sockets s) (connectedUsers s) x (demoUsers s)
    (demoConversations s) (demoCalls s) (users s) (conversations s) (calls s)
    (readyState s) (nextOid s).

Definition set_demoUsers (x : JsMap.t User.t) (s : Server) : Server :=
  mkServer (sockets s) (connectedUsers s) (waitingCalls s) x
    (demoConversations s) (demoCalls s) (users s) (conversations s) (calls s)
    (readyState s) (nextOid s).

Definition set_demoConversations (x : JsMap.t Conversation.t) (s : Server)
  : Server :=
  mkServer (sockets s) (connectedUsers s) (waitingCalls s) (demoUsers s)
    x (demoCalls s) (users s) (conversations s) (calls s)
    (readyState s) (nextOid s).

Definition set_demoCalls (x : JsMap.t DemoCall.t) (s : Server) : Server :=
  mkServer (sockets s) (connectedUsers s) (waitingCalls s) (demoUsers s)
    (demoConversations s) x (users s) (conversations s) (calls s)
    (readyState s) (nextOid s).

Definition set_users (x : list User.t) (s : Server) : Server :=
  mkServer (sockets s) (connectedUsers s) (waitingCalls s) (demoUsers s)
    (demoConversations s) (demoCalls s) x (conversations s) (calls s)
    (readyState s) (nextOid s).

Definition set_conversations (x : list Conversation.t) (s : Server) : Server :=
  mkServer (sockets s) (connectedUsers s) (waitingCalls s) (demoUsers s)
    (demoConversations s) (demoCalls s) (users s) x (calls s)
    (readyState s) (nextOid s).

Definition set_calls (x : list Call.t) (s : Server) : Server :=
  mkServer (sockets s) (connectedUsers s) (waitingCalls s) (demoUsers s)
    (demoConversations s) (demoCalls s) (users s) (conversations s) x
    (readyState s) (nextOid s).

Definition set_nextOid (x : N) (s : Server) : Server :=
  mkServer (sockets s) (connectedUsers s) (waitingCalls s) (demoUsers s)
    (demoConversations s) (demoCalls s) (users s) (conversations s) (calls s)
    (readyState s) x.

(** What a handler run takes from outside: the clock and the results of the
    two bcrypt calls. *)
Record Env := mkEnv {
  now : Date;
  bcryptCompare : bool;
  bcryptHash : string
}.

(** ** Emitted events *)

Inductive SignalKind := Offer | Answer | IceCandidate.

Inductive Msg :=
| login_error (message : string)
| login_success (id : Id) (name : string) (department : option string)
| waiting_calls (count : nat)
| new_call_request (callId : Id) (clientName : string)
    (purpose : option string) (timestamp : Date)
| conversation_started (sessionId : SocketId) (callId : Id) (name : string)
    (purpose : option string)
| call_accepted (staffName : string) (staffDepartment : option string)
| call_started (callId : string) (clientId : Id)
| signal (kind : SignalKind) (payload : string) (from : SocketId)
| call_completed (decision notes : string)
| decision_saved (callId decision : string)
| error_event (message : string).

(** [socket.emit], [io.to(target).emit] and [io.emit]. *)
Inductive Dest :=
| ToSocket (id : SocketId)
| ToRoom (target : string)
| ToAll.

Definition Out : Type := Dest * Msg.

(** Every socket is alone in the room named by its id, and the server joins
    no other room: [io.to(target)] reaches the connected socket whose id is
    [target], if any; [io.emit] reaches every connected socket. *)
Definition recipients (live : list SocketId) (d : Dest) : list SocketId :=
  match d with
  | ToSocket id => [id]
  | ToRoom target => filter (String.eqb target) live
  | ToAll => live
  end.

Definition deliveries (live : list SocketId) (outs : list Out)
  : list (SocketId * Msg) :=
  flat_map (fun o => map (fun r => (r, snd o)) (recipients live (fst o))) outs.

(** ** Collections *)

(** [Call.findById] once the id is cast. *)
Definition findById (oid : Id) (cs : list Call.t) : option Call.t :=
  find (fun c => Call._id c =? oid) cs.

(** [updateOne({_id}, {$set: ...})]: the first document with the id. *)
Fixpoint updateCall (oid : Id) (f : Call.t -> Call.t) (cs : list Call.t)
  : list Call.t :=
  match cs with
  | [] => []
  | c :: cs' =>
      if Call._id c =? oid then f c :: cs' else c :: updateCall oid f cs'
  end.

Fixpoint updateUser (oid : Id) (f : User.t -> User.t) (us : list User.t)
  : list User.t :=
  match us with
  | [] => []
  | u :: us' =>
      if User._id u =? oid then f u :: us' else u :: updateUser oid f us'
  end.

Definition isWaiting (st : CallStatus) : bool :=
  match st with Waiting => true | _ => false end.

(** The [enum] of [decision] in the call schema. *)
Definition decision_of_string (s : string) : option Decision :=
  if s =? "accepted" then Some DAccepted
  else if s =? "rejected" then Some DRejected
  else if s =? "pending" then Some DPending
  else None.

(** The [required] validator of a String path: a missing value and the empty
    string both fail. *)
Definition requiredString (v : option string) : option string :=
  match v with
  | Some EmptyString => None
  | other => other
  end.

(** How a template literal renders a value that may be [undefined]. *)
Definition interpolate (v : option string) : string :=
  match v with
  | Some s => s
  | None => "undefined"
  end.

(** ** Field updates written by the handlers *)

(** [staffId], [status] and [startTime] as the accept handler sets them;
    the pre-save hook stamps [updatedAt]. *)
Definition acceptedBy (staff : Id) (t : Date) (c : Call.t) : Call.t :=
  Call.mk (Call._id c) (Call.clientId c) (Some staff) InProgress
    (Call.callType c) (Call.purpose c) (Call.description c) (Some t)
    (Call.endTime c) (Call.duration c) (Call.decision c) (Call.notes c)
    (Call.createdAt c) t.

(** [status], [endTime], [decision], [notes] and [duration] as the decision
    handler sets them. *)
Definition decided (d : Decision) (n : string) (t : Date) (dur : Z)
  (c : Call.t) : Call.t :=
  Call.mk (Call._id c) (Call.clientId c) (Call.staffId c) Completed
    (Call.callType c) (Call.purpose c) (Call.description c)
    (Call.startTime c) (Some t) (Some dur) d (Some n)
    (Call.createdAt c) t.

(** [status = 'rejected'] as the disconnect handler sets it. *)
Definition rejectedAt (t : Date) (c : Call.t) : Call.t :=
  Call.mk (Call._id c) (Call.clientId c) (Call.staffId c) Rejected
    (Call.callType c) (Call.purpose c) (Call.description c)
    (Call.startTime c) (Call.endTime c) (Call.duration c) (Call.decision c)
    (Call.notes c) (Call.createdAt c) t.

Definition loggedIn (t : Date) (u : User.t) : User.t :=
  User.mk (User._id u) (User.name u) (User.email u) (User.password u)
    (User.role u) (User.department u) true (Some t).

(** The paths a disconnecting staff document has modified: [lastActive],
    and [isAvailable] when the document held [true]. *)
Definition loggedOut (doc : User.t) (t : Date) (u : User.t) : User.t :=
  User.mk (User._id u) (User.name u) (User.email u) (User.password u)
    (User.role u) (User.department u)
    (if User.isAvailable doc then false else User.isAvailable u) (Some t).

(** [Math.floor((endTime - startTime) / 1000)] *)
Definition durationSeconds (endT startT : Date) : Z := (endT - startT) / 1000.

(** ** Handlers *)

(** *** staff-login *)
Definition on_staff_login (s : Server) (sid : SocketId) (env : Env)
  (email password : string) : Server * list Out :=
  (* without MongoDB, await User.findOne throws and the catch answers *)
  if negb (readyState s =? 1)%Z
  then (s, [(ToSocket sid, login_error "Login failed")])
  else
  match find (fun u => (User.email u =? email) && (User.role u =? "staff"))
             (users s) with
  | None => (s, [(ToSocket sid, login_error "Invalid credentials")])
  | Some user =>
      match User.password user with
      | None => (s, [(ToSocket sid, login_error "Login failed")])
      | Some _ =>
          if negb (bcryptCompare env)
          then (s, [(ToSocket sid, login_error "Invalid credentials")])
          else
            let user' := loggedIn (now env) user in
            let s1 :=
              set_users (updateUser (User._id user) (loggedIn (now env))
                           (users s)) s in
            let s2 :=
              set_connectedUsers (JsMap.set sid user' (connectedUsers s1)) s1 in
            (s2,
             [(ToSocket sid,
               login_success (User._id user) (User.name user)
                 (User.department user));
              (ToSocket sid,
               waiting_calls
                 (List.length
                    (filter (fun c => isWaiting (Call.status c)) (calls s2))))])
      end
  end.

(** *** start-conversation *)

Definition systemMessage (name : string) (purpose : option string) : Message :=
  mkMessage SSystem
    ("New conversation started by " ++ name ++ " - Purpose: "
       ++ interpolate purpose)
    MSystem.

Definition startFailed (sid : SocketId) (reason : string) : list Out :=
  [(ToSocket sid, error_event ("Failed to start conversation: " ++ reason))].

Definition started (sid : SocketId) (callId : Id) (name : string)
  (purpose : option string) (t : Date) : list Out :=
  [(ToAll, new_call_request callId name purpose t);
   (ToSocket sid, conversation_started sid callId name purpose)].

(** The branch taken when [mongoose.connection.readyState === 1]. *)
Definition start_mongo (s : Server) (sid : SocketId) (env : Env)
  (name email : string) (purpose : option string) : Server * list Out :=
  (* let user = await User.findOne({ email }); if (!user) { ... save } *)
  let '(user, s1) :=
    match find (fun u => User.email u =? email) (users s) with
    | Some u => (u, s)
    | None =>
        let u := User.mk (newObjectId (nextOid s)) name email
                   (Some (bcryptHash env)) "client" None false None in
        (u, set_nextOid (nextOid s + 1) (set_users (users s ++ [u]) s))
    end in
  (* await conversation.save(): sessionId is a unique index *)
  if existsb (fun cv => Conversation.sessionId cv =? sid) (conversations s1)
  then (s1, startFailed sid "E11000 duplicate key error")
  else
    let conversation :=
      Conversation.mk (User._id user) sid [systemMessage name purpose] in
    let s2 := set_conversations (conversations s1 ++ [conversation]) s1 in
    (* new Call({ clientId, purpose, status: 'waiting' }) *)
    let callOid := newObjectId (nextOid s2) in
    let s3 := set_nextOid (nextOid s2 + 1) s2 in
    (* await call.save(): purpose is required *)
    match requiredString purpose with
    | None => (s3, startFailed sid "Call validation failed: purpose")
    | Some p =>
        let call :=
          Call.mk callOid (User._id user) None Waiting Video p None None None
            None DPending None (now env) (now env) in
        let s4 := set_calls (calls s3 ++ [call]) s3 in
        let s5 := set_waitingCalls (JsMap.set sid call (waitingCalls s4)) s4 in
        let s6 :=
          set_connectedUsers (JsMap.set sid user (connectedUsers s5)) s5 in
        (s6, started sid callOid name purpose (now env))
    end.

(** The in-memory branch of demo mode. *)
Definition start_demo (s : Server) (sid : SocketId) (env : Env)
  (name email : string) (purpose : option string) : Server * list Out :=
  let userId := "demo_" ++ decimal (now env) in
  let demoUser := User.mk userId name email None "client" None false None in
  let s1 := set_demoUsers (JsMap.set userId demoUser (demoUsers s)) s in
  let demoConversation :=
    Conversation.mk userId sid [systemMessage name purpose] in
  let s2 :=
    set_demoConversations
      (JsMap.set sid demoConversation (demoConversations s1)) s1 in
  let demoCall :=
    DemoCall.mk ("call_" ++ decimal (now env)) userId purpose Waiting
      (now env) in
  let s3 := set_demoCalls (JsMap.set sid demoCall (demoCalls s2)) s2 in
  let s4 := set_connectedUsers (JsMap.set sid demoUser (connectedUsers s3)) s3 in
  (s4, started sid (DemoCall._id demoCall) name purpose (now env)).

Definition on_start_conversation (s : Server) (sid : SocketId) (env : Env)
  (name email : string) (purpose : option string) : Server * list Out :=
  if (readyState s =? 1)%Z
  then start_mongo s sid env name email purpose
  else start_demo s sid env name email purpose.

(** *** accept-call

    The handler is suspended at [await Call.findById(callId)]; what runs
    before it ([accept_fetch]) and what runs after it on the fetched document
    ([accept_commit]) are kept apart, and [on_accept_call] is one followed
    by the other with nothing in between.  This is the handler on a payload
    that carries a [callId]; [const { callId } = data] then succeeds.  The
    event without payload or without [callId] is [on_incomplete] below. *)

Inductive Fetch :=
| Returned
| Threw
| Fetched (staffUser : User.t) (call : option Call.t).

Definition accept_fetch (s : Server) (sid : SocketId) (callId : string)
  : Fetch :=
  match JsMap.get sid (connectedUsers s) with
  | None => Returned
  | Some staffUser =>
      if negb (User.role staffUser =? "staff") then Returned
      else
        match castObjectId callId with
        | None => Threw
        | Some oid => Fetched staffUser (findById oid (calls s))
        end
  end.

Definition acceptFailed (sid : SocketId) : list Out :=
  [(ToSocket sid, error_event "Failed to accept call")].

Definition accept_commit (s : Server) (sid : SocketId) (env : Env)
  (callId : string) (staffUser : User.t) (fetched : option Call.t)
  : Server * list Out :=
  match fetched with
  | None => (s, [])
  | Some call =>
      if negb (isWaiting (Call.status call)) then (s, [])
      else
        (* call.staffId = staffUser._id is cast to an ObjectId; save()
           rejects when the cast failed *)
        match castObjectId (User._id staffUser) with
        | None => (s, acceptFailed sid)
        | Some staff =>
            let s1 :=
              set_calls
                (updateCall (Call._id call) (acceptedBy staff (now env))
                   (calls s)) s in
            let started := (ToSocket sid,
                            call_started callId (Call.clientId call)) in
            match JsMap.findKey (fun c => Call._id c =? callId)
                    (waitingCalls s1) with
            | Some clientSocketId =>
                (set_waitingCalls
                   (JsMap.delete clientSocketId (waitingCalls s1)) s1,
                 [(ToRoom clientSocketId,
                   call_accepted (User.name staffUser)
                     (User.department staffUser));
                  started])
            | None => (s1, [started])
            end
        end
  end.

Definition on_accept_call (s : Server) (sid : SocketId) (env : Env)
  (callId : string) : Server * list Out :=
  match accept_fetch s sid callId with
  | Returned => (s, [])
  | Threw => (s, acceptFailed sid)
  | Fetched staffUser fetched => accept_commit s sid env callId staffUser fetched
  end.

(** *** offer, answer, ice-candidate *)
Definition on_signal (s : Server) (sid : SocketId) (kind : SignalKind)
  (target payload : string) : Server * list Out :=
  (s, [(ToRoom target, signal kind payload sid)]).

(** *** call-decision

    The handler on a payload that carries [callId], [decision] and [notes];
    the event without payload or without [callId] is [on_incomplete]
    below. *)

Definition decisionFailed (sid : SocketId) : list Out :=
  [(ToSocket sid, error_event "Failed to save decision")].

Definition on_call_decision (s : Server) (sid : SocketId) (env : Env)
  (callId decision notes : string) : Server * list Out :=
  match JsMap.get sid (connectedUsers s) with
  | None => (s, [])
  | Some staffUser =>
      if negb (User.role staffUser =? "staff") then (s, [])
      else
        match castObjectId callId with
        | None => (s, decisionFailed sid)
        | Some oid =>
            match findById oid (calls s) with
            | None => (s, [])
            | Some call =>
                match Call.staffId call with
                | None => (s, decisionFailed sid) (* undefined.toString() *)
                | Some owner =>
                    if negb (owner =? User._id staffUser) then (s, [])
                    else
                      (* save() validates the enum of decision and the
                         Number cast of duration *)
                      match decision_of_string decision,
                            Call.startTime call with
                      | Some d, Some startT =>
                          let dur := durationSeconds (now env) startT in
                          let s1 :=
                            set_calls
                              (updateCall (Call._id call)
                                 (decided d notes (now env) dur) (calls s)) s in
                          let saved := (ToSocket sid,
                                        decision_saved callId decision) in
                          match JsMap.findKey
                                  (fun u => User._id u =? Call.clientId call)
                                  (connectedUsers s1) with
                          | Some clientSocketId =>
                              (s1,
                               [(ToRoom clientSocketId,
                                 call_completed decision notes);
                                saved])
                          | None => (s1, [saved])
                          end
                      | _, _ => (s, decisionFailed sid)
                      end
                end
            end
        end
  end.

(** *** disconnect *)
Definition on_disconnect (s : Server) (sid : SocketId) (env : Env) : Server :=
  let s1 :=
    match JsMap.get sid (connectedUsers s) with
    | Some user =>
        let s' :=
          if User.role user =? "staff"
          then set_users (updateUser (User._id user)
                            (loggedOut user (now env)) (users s)) s
          else s in
        set_connectedUsers (JsMap.delete sid (connectedUsers s')) s'
    | None => s
    end in
  match JsMap.get sid (waitingCalls s1) with
  | Some call =>
      let s2 :=
        set_calls (updateCall (Call._id call) (rejectedAt (now env))
                     (calls s1)) s1 in
      set_waitingCalls (JsMap.delete sid (waitingCalls s2)) s2
  | None => s1
  end.

(** ** The event loop *)

(** What an accept-call or call-decision can arrive without: any payload
    at all ([data] is [undefined]), or the [callId] of its payload. *)
Inductive Missing := NoPayload | NoCallId.

Inductive Event :=
| connection
| staff_login (email password : string)
| start_conversation (name email : string) (purpose : option string)
| accept_call (callId : string)
| signaling (kind : SignalKind) (target payload : string)
| call_decision (callId decision notes : string)
| disconnect
| accept_call_without (missing : Missing)
| call_decision_without (missing : Missing).

(** The first statement of both handlers, [const { callId } = data], sits
    inside the [try] and before the staff guard: without a payload it throws
    and the [catch] answers the error event of the handler, whoever sends
    the event.  With a payload that has no [callId] the guard runs as usual
    and then [Call.findById(undefined)], which Mongoose turns into
    [findOne({ _id: null })], finds no call: the handler returns. *)
Definition on_incomplete (s : Server) (failed : list Out) (missing : Missing)
  : Server * list Out :=
  match missing with
  | NoPayload => (s, failed)
  | NoCallId => (s, [])
  end.

(** One event of socket [sid].  Socket.IO adds the socket before the
    connection handler runs and has removed it from its rooms when the
    disconnect handler runs. *)
Definition handle (s : Server) (sid : SocketId) (env : Env) (ev : Event)
  : Server * list Out :=
  match ev with
  | connection => (set_sockets (sockets s ++ [sid]) s, [])
  | staff_login email password => on_staff_login s sid env email password
  | start_conversation name email purpose =>
      on_start_conversation s sid env name email purpose
  | accept_call callId => on_accept_call s sid env callId
  | signaling kind target payload => on_signal s sid kind target payload
  | call_decision callId decision notes =>
      on_call_decision s sid env callId decision notes
  | disconnect =>
      (on_disconnect
         (set_sockets
            (filter (fun x => negb (x =? sid)) (sockets s)) s) sid env,
       [])
  | accept_call_without missing => on_incomplete s (acceptFailed sid) missing
  | call_decision_without missing =>
      on_incomplete s (decisionFailed sid) missing
  end.

(** Events handled one after the other; the result lists who received
    what, in order. *)
Fixpoint run (s : Server) (evs : list (SocketId * Env * Event))
  : Server * list (SocketId * Msg) :=
  match evs with
  | [] => (s, [])
  | (sid, env, ev) :: rest =>
      let '(s1, outs) := handle s sid env ev in
      let '(s2, later) := run s1 rest in
      (s2, (deliveries (sockets s) outs ++ later)%list)
  end.

(** ** GET /api/calls/waiting *)

Fixpoint insertByCreatedAt (c : Call.t) (l : list Call.t) : list Call.t :=
  match l with
  | [] => [c]
  | x :: l' =>
      if (Call.createdAt c <=? Call.createdAt x)%Z
      then c :: x :: l'
      else x :: insertByCreatedAt c l'
  end.

(** [.sort({ createdAt: 1 })]; documents with equal keys keep their
    collection order. *)
Fixpoint sortByCreatedAt (l : list Call.t) : list Call.t :=
  match l with
  | [] => []
  | c :: l' => insertByCreatedAt c (sortByCreatedAt l')
  end.

(** [.populate('clientId', 'name email')] *)
Definition populate (us : list User.t) (c : Call.t)
  : Call.t * option (string * string) :=
  (c,
   match find (fun u => User._id u =? Call.clientId c) us with
   | Some u => Some (User.name u, User.email u)
   | None => None
   end).

(** The body of the route, behind [authenticateToken]. *)
Definition listWaiting (s : Server)
  : list (Call.t * option (string * string)) :=
  map (populate (users s))
    (sortByCreatedAt (filter (fun c => isWaiting (Call.status c)) (calls s))).

(** ** Predicates used in the statements *)

(** No entry of the waiting-calls map holds the call [oid]. *)
Definition detached (oid : Id) (s : Server) : Prop :=
  forall k c, In (k, c) (waitingCalls s) -> Call._id c <> oid.

(** The order of the waiting list: oldest first. *)
Definition createdBefore (a b : Call.t) : Prop :=
  Call.createdAt a <= Call.createdAt b.

(** What the status of a stored call says about its other fields. *)
Definition wellFormedCall (c : Call.t) : Prop :=
  match Call.status c with
  | Waiting => Call.staffId c = None /\ Call.startTime c = None
  | InProgress => Call.staffId c <> None /\ Call.startTime c <> None
  | Completed =>
      Call.staffId c <> None /\ Call.startTime c <> None /\
      Call.endTime c <> None /\ Call.duration c <> None
  | Rejected => True
  end.

(** [c'] is a later state of the stored call [c]: what identifies the call
    is as it was, and a call that still waits has not been written to. *)
Definition evolves (c c' : Call.t) : Prop :=
  Call._id c' = Call._id c /\
  Call.clientId c' = Call.clientId c /\
  Call.purpose c' = Call.purpose c /\
  Call.callType c' = Call.callType c /\
  Call.createdAt c' = Call.createdAt c /\
  (Call.status c' = Waiting -> c' = c).

(** ** A small office, used for the concrete runs below

    Two staff accounts in the user collection, MongoDB connected, nobody
    online yet. *)

Definition alice : User.t :=
  User.mk (newObjectId 1) "Alice" "alice@rexbot.test" (Some "$2a$alice")
    "staff" (Some "Sales") false None.

Definition bob : User.t :=
  User.mk (newObjectId 2) "Bob" "bob@rexbot.test" (Some "$2a$bob")
    "staff" (Some "Support") false None.

Definition office : Server :=
  mkServer [] [] [] [] [] [] [alice; bob] [] [] 1 10.

(** The same office with MongoDB unreachable: the server runs in demo mode. *)
Definition demoOffice : Server :=
  mkServer [] [] [] [] [] [] [] [] [] 0 10.

Definition at_ (t : Z) : Env := mkEnv t true "$2a$random".

(** The id the first call created in [office] receives, and the same id
    written with an upper-case digit. *)
Definition firstCall : Id := "00000000000000000000000b".
Definition firstCallUpper : string := "00000000000000000000000B".

(** Two staff sockets log in, a visitor and a socket that never registers
    connect, and the visitor asks for support. *)
Definition morning : list (SocketId * Env * Event) :=
  [("S1", at_ 1000, connection);
   ("S2", at_ 1001, connection);
   ("V", at_ 1002, connection);
   ("U", at_ 1003, connection);
   ("S1", at_ 2000, staff_login "alice@rexbot.test" "secret");
   ("S2", at_ 2001, staff_login "bob@rexbot.test" "secret");
   ("V", at_ 3000,
    start_conversation "Vic" "vic@rexbot.test" (Some "Support"))]%Z.

(** The server once the call of the visitor waits. *)
Definition ringing : Server := fst (run office morning).

(** Alice has accepted the call. *)
Definition talking : Server :=
  fst (handle ringing "S1" (at_ 4000) (accept_call firstCall)).

(** Alice has recorded her decision after 61.5 seconds. *)
Definition closed : Server :=
  fst (handle talking "S1" (at_ 65500)
         (call_decision firstCall "accepted" "follow-up needed")).

(** The call of the visitor as it is stored while it waits. *)
Definition ringingCall : Call.t :=
  Call.mk firstCall (newObjectId 10) None Waiting Video "Support" None None
    None None DPending None 3000%Z 3000%Z.

(** Both staff sockets send accept-call for the waiting call, Alice first. *)
Definition bothAccept : list (SocketId * Env * Event) :=
  [("S1", at_ 4000, accept_call firstCall);
   ("S2", at_ 4001, accept_call firstCall)]%Z.

(** Two more visitors ask for help while Alice talks to the first. *)
Definition queueing : list (SocketId * Env * Event) :=
  [("W", at_ 4100, connection);
   ("X", at_ 4200, connection);
   ("W", at_ 4300,
    start_conversation "Wen" "wen@rexbot.test" (Some "Billing"));
   ("X", at_ 4400,
    start_conversation "Xia" "xia@rexbot.test" (Some "Returns"))].

(** A whole call: accepted, one offer and answer and two candidates
    relayed, then decided. *)
Definition wholeCall : list (SocketId * Env * Event) :=
  [("S1", at_ 4000, accept_call firstCall);
   ("S1", at_ 4010, signaling Offer "V" "offer-sdp");
   ("V", at_ 4020, signaling Answer "S1" "answer-sdp");
   ("S1", at_ 4030, signaling IceCandidate "V" "candidate-1");
   ("V", at_ 4040, signaling IceCandidate "S1" "candidate-2");
   ("S1", at_ 65500,
    call_decision firstCall "accepted" "follow-up needed")].

(** The five things a socket event can do to the call collection. *)
Inductive CallsChange (t : Date) (cs cs' : list Call.t) : Prop :=
| Untouched : cs' = cs -> CallsChange t cs cs'
| Created (c : Call.t) :
    cs' = (cs ++ [c])%list -> Call.status c = Waiting ->
    Call.staffId c = None -> Call.startTime c = None ->
    CallsChange t cs cs'
| Accepted (c : Call.t) (staff : Id) :
    findById (Call._id c) cs = Some c -> Call.status c = Waiting ->
    cs' = updateCall (Call._id c) (acceptedBy staff t) cs ->
    CallsChange t cs cs'
| Decided (c : Call.t) (d : Decision) (n : string) (dur : Z) :
    findById (Call._id c) cs = Some c ->
    Call.staffId c <> None -> Call.startTime c <> None ->
    cs' = updateCall (Call._id c) (decided d n t dur) cs ->
    CallsChange t cs cs'
| Dropped (oid : Id) :
    cs' = updateCall oid (rejectedAt t) cs -> CallsChange t cs cs'.

(** ** The other routes of the server *)

(** [GET /api/staff/available]: the staff accounts marked available, with
    the fields [.select('name department lastActive')] keeps. *)
Definition staffAvailable (s : Server)
  : list (Id * string * option string * option Date) :=
  map (fun u => (User._id u, User.name u, User.department u,
                 User.lastActive u))
    (filter (fun u => (User.role u =? "staff") && User.isAvailable u)
       (users s)).

Fixpoint insertNewest (c : Call.t) (l : list Call.t) : list Call.t :=
  match l with
  | [] => [c]
  | x :: l' =>
      if (Call.createdAt x <=? Call.createdAt c)%Z
      then c :: x :: l'
      else x :: insertNewest c l'
  end.

(** [.sort({ createdAt: -1 })] *)
Fixpoint sortNewestFirst (l : list Call.t) : list Call.t :=
  match l with
  | [] => []
  | c :: l' => insertNewest c (sortNewestFirst l')
  end.

Definition boundTo (user : User.t) (c : Call.t) : bool :=
  match Call.staffId c with
  | Some staff => staff =? User._id user
  | None => false
  end.

(** The body of [GET /api/calls/my-calls] for the authenticated [user]. *)
Definition myCalls (s : Server) (user : User.t)
  : list (Call.t * option (string * string)) :=
  map (populate (users s)) (sortNewestFirst (filter (boundTo user) (calls s))).

(** [str.split(' ')]: one piece more than there are spaces. *)
Fixpoint splitOnSpace (str : string) : list string :=
  match str with
  | EmptyString => [EmptyString]
  | String c rest =>
      if Ascii.eqb c " "
      then EmptyString :: splitOnSpace rest
      else match splitOnSpace rest with
           | piece :: pieces => String c piece :: pieces
           | [] => [String c EmptyString]
           end
  end.

(** [authHeader && authHeader.split(' ')[1]], with the falsy values
    (no header, no second piece, an empty one) as [None]. *)
Definition tokenOf (authHeader : option string) : option string :=
  match authHeader with
  | None => None
  | Some EmptyString => None
  | Some header =>
      match nth_error (splitOnSpace header) 1 with
      | Some (String c rest) => Some (String c rest)
      | _ => None
      end
  end.

Inductive Auth :=
| Denied (status : Z) (error : string)
| Passed (user : User.t).

(** The middleware [authenticateToken].  [verify] stands for
    [jwt.verify(token, process.env.JWT_SECRET)] followed by [.userId]:
    [None] when it throws.  [User.findById] is awaited inside the [try]:
    a cast error, or a query made without a MongoDB connection, throws and
    the [catch] answers 403. *)
Definition authenticateToken (verify : string -> option string) (s : Server)
  (authHeader : option string) : Auth :=
  match tokenOf authHeader with
  | None => Denied 401 "Access token required"
  | Some token =>
      match verify token with
      | None => Denied 403 "Invalid token"
      | Some userId =>
          match castObjectId userId with
          | None => Denied 403 "Invalid token"
          | Some oid =>
              if negb (readyState s =? 1)%Z then Denied 403 "Invalid token"
              else
                match find (fun u => User._id u =? oid) (users s) with
                | None => Denied 401 "Invalid token"
                | Some user => Passed user
                end
          end
      end
  end.

(** What a route answers: a JSON body, [{ error }] under a status, or the
    answer of the rate limiter, status 429 with the text the limiter sends
    by default. *)
Inductive Response (A : Type) :=
| Json (body : A)
| Failure (status : Z) (error : string)
| TooManyRequests.
Arguments Json {A} body.
Arguments Failure {A} status error.
Arguments TooManyRequests {A}.

(** [app.use(limiter)], mounted before every route: [rateLimit] with
    [windowMs] of 15 minutes and [max] of 100.  [hits] is the number of
    requests the limiter has counted for the address of the client in the
    current window, this request included; beyond [max] the request is
    answered by the limiter and reaches neither middleware nor route. *)
Definition limiter {A : Type} (hits : nat) (next : Response A) : Response A :=
  if (100 <? hits)%nat then TooManyRequests else next.

(** [GET /api/calls/waiting] and [GET /api/calls/my-calls] behind the
    limiter and the middleware. *)
Definition getCallsWaiting (hits : nat) (verify : string -> option string)
  (s : Server) (authHeader : option string)
  : Response (list (Call.t * option (string * string))) :=
  limiter hits
    match authenticateToken verify s authHeader with
    | Denied status error => Failure status error
    | Passed _ => Json (listWaiting s)
    end.

Definition getMyCalls (hits : nat) (verify : string -> option string)
  (s : Server) (authHeader : option string)
  : Response (list (Call.t * option (string * string))) :=
  limiter hits
    match authenticateToken verify s authHeader with
    | Denied status error => Failure status error
    | Passed user => Json (myCalls s user)
    end.

(** The two counts in the body of [GET /api/health], the sizes of the two
    maps at the moment the request is served. *)
Definition health (s : Server) : nat * nat :=
  (List.length (connectedUsers s), List.length (waitingCalls s)).

(** The order of the call history: newest first. *)
Definition createdAfter (a b : Call.t) : Prop :=
  Call.createdAt b <= Call.createdAt a.

(** Alice logs in a second time, from another socket, while she talks. *)
Definition twoSockets : Server :=
  fst (run talking
         [("S3", at_ 5000, connection);
          ("S3", at_ 5001, staff_login "alice@rexbot.test" "secret")]).

(** A string without a space. *)
Definition noSpace (str : string) : Prop :=
  string_forallb (fun c => negb (Ascii.eqb c " ")) str = true.

(** ** chat-message and the language model (the RexBot server) *)

Definition REXBOT_PROMPT : string :=
"You are RexBot, a professional AI receptionist. Your personality is:

1. Be professional, friendly, and helpful
2. Use formal but warm language
3. Ask relevant questions to understand visitor needs
4. Collect necessary information for appointments
5. Be efficient and direct
6. Show empathy and understanding
7. Guide visitors through the process professionally

Always respond as RexBot, maintaining your professional receptionist personality while being helpful and efficient.".

Definition senderName (x : Sender) : string :=
  match x with
  | SUser => "user"
  | SRexbot => "rexbot"
  | SStaff => "staff"
  | SSystem => "system"
  end.

(** [lines.join(sep)] *)
Fixpoint join (sep : string) (lines : list string) : string :=
  match lines with
  | [] => ""
  | [line] => line
  | line :: rest => line ++ sep ++ join sep rest
  end.

Definition newline : string := String (ascii_of_N 10) "".

(** [arr.slice(-n)] *)
Definition lastN {A : Type} (n : nat) (l : list A) : list A :=
  skipn (List.length l - n) l.

(** The [text] of the request body sent to Gemini. *)
Definition promptText (history : list Message) (message : string) : string :=
  REXBOT_PROMPT ++ newline ++ newline ++ "Conversation history:" ++ newline
    ++ join newline
         (map (fun msg => senderName (sender msg) ++ ": " ++ content msg)
            history)
    ++ newline ++ newline ++ "User: " ++ message.

Definition fallbackResponses : list string :=
  ["Hello! I'm RexBot, your AI receptionist. How may I assist you today?";
   "Welcome! I'm here to help you. What brings you here today?";
   "Good day! I'm RexBot, ready to assist you. How can I help?";
   "Hello there! I'm your AI receptionist. What can I do for you today?";
   "Welcome! I'm RexBot. How may I be of service to you?"].

Definition quotaResponses : list string :=
  ["I understand your request. Let me help you with that. Could you please provide more details?";
   "Thank you for reaching out. I'm here to assist you. What specific information do you need?";
   "I appreciate your inquiry. Let me guide you through this process. What would you like to know?";
   "Hello! I'm here to help. Could you please clarify your request so I can assist you better?";
   "Thank you for contacting us. I'm ready to help you with your needs. What can I do for you?"].

Definition apology : string :=
  "I apologize, but I'm experiencing some technical difficulties. Please try again in a moment.".

(** What the POST to the model gives: the text of the first candidate, an
    HTTP error with its status, or any other failure (no connection, a body
    of another shape). *)
Inductive ApiReply :=
| ApiText (text : string)
| ApiStatus (status : Z)
| ApiFailure.

(** What a run of the chat handler takes from outside: the configured key,
    the number [Math.floor(Math.random() * 5)] would give, taken modulo
    five, and the answer of the model to a prompt. *)
Record ChatEnv := mkChatEnv {
  apiKey : option string;
  dice : nat;
  gemini : string -> ApiReply
}.

Definition pick (env : ChatEnv) (responses : list string) : string :=
  nth (dice env mod 5) responses "".

(** [generateResponse(message, conversationId)] of the RexBot server from
    the point where [Conversation.findOne] has answered: the last ten
    messages, the test of the key, the request to the model. *)
Definition respond (s : Server) (env : ChatEnv)
  (message conversationId : string) : string :=
  let messages :=
    match find (fun cv => Conversation.sessionId cv =? conversationId)
               (conversations s) with
    | Some conversation => lastN 10 (Conversation.messages conversation)
    | None => []
    end in
  match apiKey env with
  | None => pick env fallbackResponses
  | Some key =>
      if (key =? "") || (key =? "your_gemini_api_key_here")
      then pick env fallbackResponses
      else
        match gemini env (promptText messages message) with
        | ApiText text => text
        | ApiStatus status =>
            if (status =? 429)%Z then pick env quotaResponses else apology
        | ApiFailure => apology
        end
  end.

(** [generateResponse(message, conversationId)].  Its first statement,
    [await Conversation.findOne({ sessionId: conversationId })], sits inside
    the [try] and before the key is read: without a MongoDB connection it
    throws an error that has no [response], and the [catch] returns the
    apology. *)
Definition generateResponse (s : Server) (env : ChatEnv)
  (message conversationId : string) : string :=
  if negb (readyState s =? 1)%Z then apology
  else respond s env message conversationId.

Inductive Reply :=
| ai_response (response : string)
| error_reply (message : string).

(** [conversation.messages.push(m); await conversation.save()] on the first
    conversation of the session. *)
Fixpoint pushMessage (sessionId : string) (m : Message)
  (cvs : list Conversation.t) : list Conversation.t :=
  match cvs with
  | [] => []
  | cv :: rest =>
      if Conversation.sessionId cv =? sessionId
      then Conversation.mk (Conversation.userId cv) (Conversation.sessionId cv)
             (Conversation.messages cv ++ [m]) :: rest
      else cv :: pushMessage sessionId m rest
  end.

Definition hasConversation (s : Server) (sessionId : string) : bool :=
  existsb (fun cv => Conversation.sessionId cv =? sessionId)
    (conversations s).

(** The chat-message handler; what it emits goes to the sending socket.
    [content] is a required path of a message: saving an empty one
    fails.  The handler awaits [Conversation.findOne] itself before it calls
    [generateResponse]; MongoDB is taken to answer the queries of one run of
    the handler alike, so the call is [respond]. *)
Definition on_chat_message (s : Server) (sid : SocketId) (env : ChatEnv)
  (sessionId message : string) : Server * list Reply :=
  match JsMap.get sid (connectedUsers s) with
  | None => (s, [])
  | Some _ =>
      if hasConversation s sessionId
      then
        match message with
        | EmptyString => (s, [error_reply "Failed to process message"])
        | _ =>
            let s1 :=
              set_conversations
                (pushMessage sessionId (mkMessage SUser message MText)
                   (conversations s)) s in
            let aiResponse := respond s1 env message sessionId in
            match aiResponse with
            | EmptyString => (s1, [error_reply "Failed to process message"])
            | _ =>
                (set_conversations
                   (pushMessage sessionId (mkMessage SRexbot aiResponse MText)
                      (conversations s1)) s1,
                 [ai_response aiResponse])
            end
        end
      else (s, [ai_response (respond s env message sessionId)])
  end.

(** ** The receptionist server (the OpenAI variant) *)

Definition RECEPTIONIST_PROMPT : string :=
"You are a professional, friendly receptionist named Alexa. Your role is to:

1. Greet visitors warmly and professionally
2. Help with common inquiries about:
   - Office hours and location
   - Scheduling appointments
   - General information requests
   - Directing calls or visitors to appropriate departments
3. Maintain a helpful, courteous, and professional tone
4. Ask clarifying questions when needed
5. Provide clear, concise responses
6. Use natural, conversational language

Always respond as if you're speaking to someone in person, maintaining the warm and professional tone of a receptionist. Keep responses concise but helpful.".

Inductive ChatRole := RSystem | RUser | RAssistant.

Record Turn := mkTurn {
  turnRole : ChatRole;
  turnContent : string
}.

(** The messages of a completion request: the system prompt, the stored
    history, the new message. *)
Definition requestMessages (conversation : list Turn) (message : string)
  : list Turn :=
  (mkTurn RSystem RECEPTIONIST_PROMPT :: conversation
     ++ [mkTurn RUser message])%list.

(** [conversation.push(user, assistant)] followed by
    [if (conversation.length > 10) conversation.splice(0, 2)]. *)
Definition remember (conversation : list Turn) (message response : string)
  : list Turn :=
  let grown :=
    (conversation ++ [mkTurn RUser message; mkTurn RAssistant response])%list
  in
  if (10 <? List.length grown)%nat then skipn 2 grown else grown.

(** [generateResponse(message, conversationId)] of the receptionist server
    on its [conversations] map.  [openai] stands for the completion call and
    the read of [choices[0].message.content]: [None] when either throws. *)
Definition generateReply (openai : list Turn -> option string)
  (conversations : JsMap.t (list Turn)) (message conversationId : string)
  : JsMap.t (list Turn) * string :=
  let conversation :=
    match JsMap.get conversationId conversations with
    | Some c => c
    | None => []
    end in
  match openai (requestMessages conversation message) with
  | Some response =>
      (JsMap.set conversationId (remember conversation message response)
         conversations,
       response)
  | None => (conversations, apology)
  end.

(** [POST /api/chat]: the new map, the status and the [response] or
    [error] of the body. *)
Definition postChat (openai : list Turn -> option string)
  (conversations : JsMap.t (list Turn)) (message conversationId : option string)
  : JsMap.t (list Turn) * (Z * string) :=
  match requiredString message, requiredString conversationId with
  | Some m, Some cid =>
      let '(conversations', response) :=
        generateReply openai conversations m cid in
      (conversations', (200, response))
  | _, _ => (conversations, (400, "Message and conversationId are required"))
  end.

(** Chats handled one after the other. *)
Fixpoint chats (openai : list Turn -> option string)
  (conversations : JsMap.t (list Turn)) (requests : list (string * string))
  : JsMap.t (list Turn) :=
  match requests with
  | [] => conversations
  | (message, conversationId) :: rest =>
      chats openai
        (fst (postChat openai conversations (Some message)
                (Some conversationId)))
        rest
  end.

(** The history the server holds for a conversation id, empty when it holds
    none. *)
Definition historyOf (conversations : JsMap.t (list Turn))
  (conversationId : string) : list Turn :=
  match JsMap.get conversationId conversations with
  | Some c => c
  | None => []
  end.

(** Everything said in conversation [conversationId] while the requests are
    handled: for each of its requests that the model answered, the message
    and the answer. *)
Fixpoint transcript (openai : list Turn -> option string)
  (conversations : JsMap.t (list Turn)) (requests : list (string * string))
  (conversationId : string) : list Turn :=
  match requests with
  | [] => []
  | (message, cid) :: rest =>
      (match requiredString (Some message), requiredString (Some cid),
             openai (requestMessages (historyOf conversations cid) message)
       with
       | Some _, Some _, Some response =>
           if cid =? conversationId
           then [mkTurn RUser message; mkTurn RAssistant response]
           else []
       | _, _, _ => []
       end
       ++ transcript openai
            (fst (postChat openai conversations (Some message) (Some cid)))
            rest conversationId)%list
  end.

(** A model that answers every request, and seven chats in two
    conversations. *)
Definition echo (request : list Turn) : option string :=
  Some ("You said: " ++ turnContent (last request (mkTurn RUser ""))).

Definition sevenChats : list (string * string) :=
  [("one", "c1"); ("two", "c1"); ("hello", "c2"); ("three", "c1");
   ("four", "c1"); ("five", "c1"); ("six", "c1")].

(** [Conversation.findOne({ sessionId })] *)
Definition findConversation (sessionId : string) (cvs : list Conversation.t)
  : option Conversation.t :=
  find (fun cv => Conversation.sessionId cv =? sessionId) cvs.

(** How the chat handler answers once the model's reply is known. *)
Definition answer (reply : string) : list Reply :=
  match reply with
  | EmptyString => [error_reply "Failed to process message"]
  | _ => [ai_response reply]
  end.

(** What [generateResponse] makes of the model's answer to a prompt. *)
Definition replyTo (env : ChatEnv) (prompt : string) : string :=
  match gemini env prompt with
  | ApiText text => text
  | ApiStatus status =>
      if (status =? 429)%Z then pick env quotaResponses else apology
  | ApiFailure => apology
  end.

(** A server without a Gemini key, and one with a key whose model repeats
    the prompt it was given. *)
Definition noKey : ChatEnv := mkChatEnv None 7 (fun _ => ApiFailure).
Definition parrot : ChatEnv :=
  mkChatEnv (Some "AIza-test") 0 (fun prompt => ApiText prompt).

(** The conversation of the visitor as start-conversation stored it. *)
Definition ringingConversation : Conversation.t :=
  Conversation.mk (newObjectId 10) "V"
    [mkMessage SSystem "New conversation started by Vic - Purpose: Support"
       MSystem].

(** ** The two browser clients, as far as they talk to the handlers *)

(** What a client sends on its socket.  A field the object lacks is
    [None]: it is dropped from the message. *)
Inductive ClientEmit :=
| emit_start_conversation (name email purpose : string)
| emit_accept_call (callId : string)
| emit_call_decision (callId : option string) (decision notes : string)
| emit_end_call (callId : option string).

(** How the server takes a message.  No handler is registered for end-call.
    A call-decision without a call id passes the staff guard or not and
    then asks [Call.findById(undefined)], which Mongoose turns into
    [findOne({ _id: null })]: no call, and the handler returns. *)
Definition receive (s : Server) (sid : SocketId) (env : Env) (e : ClientEmit)
  : Server * list Out :=
  match e with
  | emit_start_conversation name email purpose =>
      handle s sid env (start_conversation name email (Some purpose))
  | emit_accept_call callId => handle s sid env (accept_call callId)
  | emit_call_decision (Some callId) decision notes =>
      handle s sid env (call_decision callId decision notes)
  | emit_call_decision None decision notes => (s, [])
  | emit_end_call _ => (s, [])
  end.

(** [handleConversationSubmit] of the visitor page on the three fields of
    the form ([formData.get] gives [null] for a field that is not there):
    the message it emits, if any. *)
Definition handleConversationSubmit (name email purpose : option string)
  : list ClientEmit :=
  match requiredString name, requiredString email, requiredString purpose with
  | Some n, Some e, Some p => [emit_start_conversation n e p]
  | _, _, _ => []
  end.

(** [this.currentCall] of the staff dashboard: [{ id }] once the accept
    button was used, [{ callId, clientId }] once call-started arrived. *)
Record CurrentCall := mkCurrentCall {
  cc_id : option string;
  cc_callId : option string;
  cc_clientId : option Id
}.

Record Dashboard := mkDashboard {
  currentCall : option CurrentCall
}.

(** [acceptCall(callId)], up to the media set-up *)
Definition acceptCall (d : Dashboard) (callId : string)
  : Dashboard * list ClientEmit :=
  (mkDashboard (Some (mkCurrentCall (Some callId) None None)),
   [emit_accept_call callId]).

(** [handleCallStarted(data)]: [this.currentCall = data] *)
Definition handleCallStarted (d : Dashboard) (callId : string) (clientId : Id)
  : Dashboard :=
  mkDashboard (Some (mkCurrentCall None (Some callId) (Some clientId))).

(** [makeDecision(decision)] with the text of the notes field; it ends
    with [cleanupCall()]. *)
Definition makeDecision (d : Dashboard) (decision notes : string)
  : Dashboard * list ClientEmit :=
  match currentCall d with
  | None => (d, [])
  | Some c => (mkDashboard None, [emit_call_decision (cc_id c) decision notes])
  end.

(** [endCall()] *)
Definition endCall (d : Dashboard) : Dashboard * list ClientEmit :=
  match currentCall d with
  | None => (d, [])
  | Some c => (mkDashboard None, [emit_end_call (cc_id c)])
  end.

(** A server takes the messages of one socket in order. *)
Fixpoint receiveAll (s : Server) (sid : SocketId) (env : Env)
  (es : list ClientEmit) : Server * list Out :=
  match es with
  | [] => (s, [])
  | e :: rest =>
      let '(s1, outs) := receive s sid env e in
      let '(s2, later) := receiveAll s1 sid env rest in
      (s2, (outs ++ later)%list)
  end.

(** The two maps have no key twice and every socket with a waiting call is
    a registered one. *)
Definition tidyMaps (s : Server) : Prop :=
  NoDup (map fst (connectedUsers s)) /\
  NoDup (map fst (waitingCalls s)) /\
  incl (map fst (waitingCalls s)) (map fst (connectedUsers s)).

(** What an event of socket [sid] can do to the two maps. *)
Inductive MapsChange (sid : SocketId) (s s' : Server) : Prop :=
| MapsKept :
    connectedUsers s' = connectedUsers s ->
    waitingCalls s' = waitingCalls s -> MapsChange sid s s'
| Registered (u : User.t) :
    connectedUsers s' = JsMap.set sid u (connectedUsers s) ->
    waitingCalls s' = waitingCalls s -> MapsChange sid s s'
| Queued (u : User.t) (c : Call.t) :
    connectedUsers s' = JsMap.set sid u (connectedUsers s) ->
    waitingCalls s' = JsMap.set sid c (waitingCalls s) -> MapsChange sid s s'
| Taken (k : string) :
    connectedUsers s' = connectedUsers s ->
    waitingCalls s' = JsMap.delete k (waitingCalls s) -> MapsChange sid s s'
| Left :
    connectedUsers s' = JsMap.delete sid (connectedUsers s) ->
    waitingCalls s' = JsMap.delete sid (waitingCalls s) -> MapsChange sid s s'.

(** Case analysis along the branches of a handler. *)
Ltac branches :=
  repeat match goal with
    | |- context [match ?x with _ => _ end] => destruct x eqn:?
    end.


(** The disconnect handler stopped at [await call.save()]: the entry of the
    socket has left [connectedUsers] and its waiting call is still in
    [waitingCalls].  [None] when the socket has no waiting call, so that the
    handler does not come to this [await]. *)
Definition disconnect_await (s : Server) (sid : SocketId) (env : Env)
  : option Server :=
  let s1 :=
    match JsMap.get sid (connectedUsers s) with
    | Some user =>
        let s' :=
          if User.role user =? "staff"
          then set_users (updateUser (User._id user)
                            (loggedOut user (now env)) (users s)) s
          else s in
        set_connectedUsers (JsMap.delete sid (connectedUsers s')) s'
    | None => s
    end in
  match JsMap.get sid (waitingCalls s1) with
  | Some _ => Some s1
  | None => None
  end.

(** A visitor waits and nobody else is connected. *)
Definition loneVisitor : Server :=
  fst (run office
         [("V", at_ 3000, connection);
          ("V", at_ 3001,
           start_conversation "Vic" "vic@rexbot.test" (Some "Support"))]).

(** * Properties *)

(** ** Collections and maps *)

Lemma findById_id (oid : Id) (cs : list Call.t) (c : Call.t) :
  findById oid cs = Some c -> Call._id c = oid.
Proof.
  unfold findById. intros H. apply find_some in H.
  destruct H as [_ H]. now apply String.eqb_eq.
Qed.

Lemma findById_updateCall_same (oid : Id) (f : Call.t -> Call.t)
  (cs : list Call.t) (c : Call.t) :
  (forall x, Call._id (f x) = Call._id x) ->
  findById oid cs = Some c ->
  findById oid (updateCall oid f cs) = Some (f c).
Proof.
  intros Hf. unfold findById.
  induction cs as [|a cs IH]; simpl; [discriminate|].
  destruct (Call._id a =? oid) eqn:E; simpl.
  - intros H. injection H as ->. now rewrite Hf, E.
  - now rewrite E.
Qed.

Lemma findById_updateCall_other (oid oid' : Id) (f : Call.t -> Call.t)
  (cs : list Call.t) :
  (forall x, Call._id (f x) = Call._id x) ->
  oid' <> oid ->
  findById oid' (updateCall oid f cs) = findById oid' cs.
Proof.
  intros Hf Hne. unfold findById.
  induction cs as [|a cs IH]; simpl; [reflexivity|].
  destruct (Call._id a =? oid) eqn:E; simpl.
  - rewrite Hf. apply String.eqb_eq in E.
    destruct (Call._id a =? oid') eqn:E'; [|reflexivity].
    apply String.eqb_eq in E'. congruence.
  - destruct (Call._id a =? oid'); [reflexivity|exact IH].
Qed.

Lemma updateCall_absent (oid : Id) (f : Call.t -> Call.t) (cs : list Call.t) :
  findById oid cs = None -> updateCall oid f cs = cs.
Proof.
  unfold findById.
  induction cs as [|a cs IH]; simpl; [reflexivity|].
  destruct (Call._id a =? oid); [discriminate|].
  intros H. now rewrite IH.
Qed.

Lemma acceptedBy_id (staff : Id) (t : Date) (c : Call.t) :
  Call._id (acceptedBy staff t c) = Call._id c.
Proof. reflexivity. Qed.

Lemma decided_id (d : Decision) (n : string) (t : Date) (dur : Z)
  (c : Call.t) :
  Call._id (decided d n t dur c) = Call._id c.
Proof. reflexivity. Qed.

Lemma rejectedAt_id (t : Date) (c : Call.t) :
  Call._id (rejectedAt t c) = Call._id c.
Proof. reflexivity. Qed.

Lemma get_delete_same {V : Type} (k : string) (m : JsMap.t V) :
  JsMap.get k (JsMap.delete k m) = None.
Proof.
  induction m as [|[k' v] m IH]; simpl; [reflexivity|].
  destruct (k =? k') eqn:E; simpl; [exact IH|]. now rewrite E.
Qed.

Lemma get_delete_other {V : Type} (k k' : string) (m : JsMap.t V) :
  k' <> k -> JsMap.get k' (JsMap.delete k m) = JsMap.get k' m.
Proof.
  intros Hne. induction m as [|[k0 v] m IH]; simpl; [reflexivity|].
  destruct (k =? k0) eqn:E; simpl.
  - apply String.eqb_eq in E. subst k0.
    apply String.eqb_neq in Hne. now rewrite Hne.
  - now rewrite IH.
Qed.

Lemma role_not_staff (u : User.t) :
  User.role u <> "staff" -> (User.role u =? "staff") = false.
Proof. intros H. now apply String.eqb_neq. Qed.

(** ** accept-call *)

(** An accept for a stored call that is not waiting changes nothing and
    emits nothing, whoever sends it. *)
Lemma accept_not_waiting (s : Server) (sid : SocketId) (env : Env)
  (callId : string) (oid : Id) (c : Call.t) :
  castObjectId callId = Some oid ->
  findById oid (calls s) = Some c ->
  Call.status c <> Waiting ->
  on_accept_call s sid env callId = (s, []).
Proof.
  intros Hcast Hfind Hst. unfold on_accept_call, accept_fetch.
  destruct (JsMap.get sid (connectedUsers s)) as [u|]; [|reflexivity].
  destruct (User.role u =? "staff"); simpl; [|reflexivity].
  rewrite Hcast, Hfind. simpl.
  destruct (Call.status c); simpl; try reflexivity. congruence.
Qed.

(** What a successful accept does to the stored call. *)
Lemma accept_success (s : Server) (sid : SocketId) (env : Env)
  (callId : string) (oid staff : Id) (c : Call.t) (u : User.t) :
  castObjectId callId = Some oid ->
  findById oid (calls s) = Some c ->
  Call.status c = Waiting ->
  JsMap.get sid (connectedUsers s) = Some u ->
  User.role u = "staff" ->
  castObjectId (User._id u) = Some staff ->
  exists s1 outs1,
    on_accept_call s sid env callId = (s1, outs1) /\
    In (ToSocket sid, call_started callId (Call.clientId c)) outs1 /\
    findById oid (calls s1) = Some (acceptedBy staff (now env) c) /\
    connectedUsers s1 = connectedUsers s /\
    sockets s1 = sockets s.
Proof.
  intros Hcast Hfind Hst Hu Hrole Hstaff.
  unfold on_accept_call, accept_fetch. rewrite Hu, Hrole. simpl.
  rewrite Hcast, Hfind. simpl. rewrite Hst, Hstaff. simpl.
  pose proof (findById_id _ _ _ Hfind) as Hid. rewrite Hid.
  destruct (JsMap.findKey _ _) as [k|]; eexists; eexists;
    (split; [reflexivity|]); simpl;
    (split; [tauto|]);
    (split; [apply findById_updateCall_same; auto using acceptedBy_id|]);
    auto.
Qed.

Lemma later_accepts_silent (s : Server) (callId : string) (oid : Id)
  (c : Call.t) (later : list (SocketId * Env)) :
  castObjectId callId = Some oid ->
  findById oid (calls s) = Some c ->
  Call.status c <> Waiting ->
  run s (map (fun r => (fst r, snd r, accept_call callId)) later) = (s, []).
Proof.
  intros Hcast Hfind Hst.
  induction later as [|[sid env] later IH]; simpl; [reflexivity|].
  rewrite (accept_not_waiting s sid env callId oid c Hcast Hfind Hst).
  now rewrite IH.
Qed.

(** C1 (as amended).  When the accept-call events for a waiting call are
    handled one after the other, the first one sent by a registered staff
    connection succeeds: that connection receives call-started and the
    stored call is in progress and bound to its user.  Every later
    accept-call for the call, whoever sends it, changes nothing and nobody
    receives anything for it: all that is delivered is what the first
    accept emitted. *)
Theorem accept_first_wins (s : Server) (callId : string) (oid staff : Id)
  (c : Call.t) (u : User.t) (winner : SocketId) (wenv : Env)
  (later : list (SocketId * Env)) :
  castObjectId callId = Some oid ->
  findById oid (calls s) = Some c ->
  Call.status c = Waiting ->
  JsMap.get winner (connectedUsers s) = Some u ->
  User.role u = "staff" ->
  castObjectId (User._id u) = Some staff ->
  exists s1 outs1,
    on_accept_call s winner wenv callId = (s1, outs1) /\
    In (ToSocket winner, call_started callId (Call.clientId c)) outs1 /\
    findById oid (calls s1) = Some (acceptedBy staff (now wenv) c) /\
    run s ((winner, wenv, accept_call callId)
             :: map (fun r => (fst r, snd r, accept_call callId)) later)
    = (s1, deliveries (sockets s) outs1).
Proof.
  intros Hcast Hfind Hst Hu Hrole Hstaff.
  destruct (accept_success s winner wenv callId oid staff c u
              Hcast Hfind Hst Hu Hrole Hstaff)
    as (s1 & outs1 & Hrun & Hin & Hfind1 & _ & _).
  exists s1, outs1. repeat split; try assumption.
  cbn [run handle]. rewrite Hrun.
  rewrite (later_accepts_silent s1 callId oid _ later Hcast Hfind1)
    by (simpl; discriminate).
  now rewrite app_nil_r.
Qed.

Lemma accept_first_wins_witness :
  exists s1 outs1,
    on_accept_call ringing "S1" (at_ 4000) firstCall = (s1, outs1) /\
    In (ToSocket "S1", call_started firstCall (Call.clientId ringingCall))
       outs1 /\
    findById firstCall (calls s1)
    = Some (acceptedBy (newObjectId 1) (now (at_ 4000)) ringingCall) /\
    run ringing
      (("S1", at_ 4000, accept_call firstCall)
         :: map (fun r => (fst r, snd r, accept_call firstCall))
              [("S2", at_ 4001)])
    = (s1, deliveries (sockets ringing) outs1).
Proof.
  apply (accept_first_wins ringing firstCall firstCall (newObjectId 1)
           ringingCall (loggedIn 2000 alice) "S1" (at_ 4000)
           [("S2", at_ 4001)]);
    vm_compute; reflexivity.
Defined.

(** C1 (as stated) fails: Bob's socket is a registered staff connection and
    loses the race, and it receives no event at all, neither a claimed-call
    error nor anything else. *)
Lemma loser_receives_nothing :
  JsMap.get "S2" (connectedUsers ringing) = Some (loggedIn 2001 bob) /\
  snd (run ringing bothAccept)
  = [("V", call_accepted "Alice" (Some "Sales"));
     ("S1", call_started firstCall (newObjectId 10))] /\
  ~ exists m, In ("S2", m) (snd (run ringing bothAccept)).
Proof.
  split; [vm_compute; reflexivity|].
  split; [vm_compute; reflexivity|].
  intros [m H]. vm_compute in H.
  destruct H as [H|[H|[]]]; discriminate H.
Qed.

(** The two accept handlers interleaved at their [await]: both fetch the
    call while it waits, then both commit.  Both sockets receive
    call-started and the call ends up bound to the second. *)
Lemma accept_race_two_winners :
  match accept_fetch ringing "S1" firstCall,
        accept_fetch ringing "S2" firstCall with
  | Fetched u1 c1, Fetched u2 c2 =>
      let r1 := accept_commit ringing "S1" (at_ 4000) firstCall u1 c1 in
      let r2 := accept_commit (fst r1) "S2" (at_ 4001) firstCall u2 c2 in
      In (ToSocket "S1", call_started firstCall (newObjectId 10)) (snd r1) /\
      In (ToSocket "S2", call_started firstCall (newObjectId 10)) (snd r2) /\
      option_map Call.staffId (findById firstCall (calls (fst r2)))
      = Some (Some (User._id bob))
  | _, _ => False
  end.
Proof.
  vm_compute. repeat split; tauto.
Qed.

(** C10.  An accept-call from a connection that is not registered, or
    whose registered role is not staff, leaves the server state as it was
    whatever it carries.  It emits no event when it carries a payload, with
    any [callId] or with none; when it carries no payload at all the
    destructuring at the head of the handler throws before the guard is
    reached, and the sender is sent the error event 'Failed to accept
    call'. *)
Theorem accept_from_non_staff_is_silent (s : Server) (sid : SocketId)
  (env : Env) :
  JsMap.get sid (connectedUsers s) = None \/
  (exists u, JsMap.get sid (connectedUsers s) = Some u /\
             User.role u <> "staff") ->
  (forall callId, handle s sid env (accept_call callId) = (s, [])) /\
  handle s sid env (accept_call_without NoCallId) = (s, []) /\
  handle s sid env (accept_call_without NoPayload)
  = (s, [(ToSocket sid, error_event "Failed to accept call")]).
Proof.
  intros H. split; [|split; reflexivity].
  intros callId. cbn [handle]. unfold on_accept_call, accept_fetch.
  destruct H as [H | (u & H & Hrole)]; rewrite H; [reflexivity|].
  now rewrite (role_not_staff u Hrole).
Qed.

Lemma accept_from_non_staff_is_silent_witness :
  ((forall callId,
       handle ringing "U" (at_ 4000) (accept_call callId) = (ringing, [])) /\
   handle ringing "U" (at_ 4000) (accept_call_without NoCallId)
   = (ringing, []) /\
   handle ringing "U" (at_ 4000) (accept_call_without NoPayload)
   = (ringing, [(ToSocket "U", error_event "Failed to accept call")])) /\
  handle ringing "V" (at_ 4000) (accept_call firstCall) = (ringing, []).
Proof.
  split.
  - apply (accept_from_non_staff_is_silent ringing "U" (at_ 4000)).
    left. vm_compute. reflexivity.
  - apply (accept_from_non_staff_is_silent ringing "V" (at_ 4000)).
    right. eexists. split; [vm_compute; reflexivity|].
    simpl. discriminate.
Defined.

(** An accept-call without payload from a socket that never registered is
    answered with an error event. *)
Lemma unregistered_accept_without_payload :
  JsMap.get "U" (connectedUsers ringing) = None /\
  handle ringing "U" (at_ 4000) (accept_call_without NoPayload)
  = (ringing, [(ToSocket "U", error_event "Failed to accept call")]) /\
  handle ringing "U" (at_ 4000) (accept_call_without NoPayload)
  <> (ringing, []).
Proof.
  split; [reflexivity|]. split; [reflexivity|]. discriminate.
Qed.

(** ** call-decision *)

(** The decision handler never looks at the status of the call: the staff
    user the call is bound to can record a decision whatever the status. *)
Lemma decision_success (s : Server) (sid : SocketId) (env : Env)
  (callId decision notes : string) (oid : Id) (c : Call.t) (u : User.t)
  (d : Decision) (t0 : Date) :
  JsMap.get sid (connectedUsers s) = Some u ->
  User.role u = "staff" ->
  castObjectId callId = Some oid ->
  findById oid (calls s) = Some c ->
  Call.staffId c = Some (User._id u) ->
  decision_of_string decision = Some d ->
  Call.startTime c = Some t0 ->
  exists s1 outs,
    on_call_decision s sid env callId decision notes = (s1, outs) /\
    In (ToSocket sid, decision_saved callId decision) outs /\
    findById oid (calls s1)
    = Some (decided d notes (now env) ((now env - t0) / 1000) c).
Proof.
  intros Hu Hrole Hcast Hfind Hown Hd Ht0.
  unfold on_call_decision. rewrite Hu, Hrole. simpl.
  rewrite Hcast, Hfind, Hown, String.eqb_refl, Hd, Ht0. simpl.
  pose proof (findById_id _ _ _ Hfind) as Hid. rewrite Hid.
  unfold durationSeconds.
  destruct (JsMap.findKey _ _) as [k|]; eexists; eexists;
    (split; [reflexivity|]); simpl;
    (split; [tauto|]);
    apply findById_updateCall_same; auto using decided_id.
Qed.

Lemma decision_not_owner (s : Server) (sid : SocketId) (env : Env)
  (callId decision notes : string) (oid owner : Id) (c : Call.t)
  (u : User.t) :
  JsMap.get sid (connectedUsers s) = Some u ->
  castObjectId callId = Some oid ->
  findById oid (calls s) = Some c ->
  Call.staffId c = Some owner ->
  owner <> User._id u ->
  on_call_decision s sid env callId decision notes = (s, []).
Proof.
  intros Hu Hcast Hfind Hown Hne.
  unfold on_call_decision. rewrite Hu.
  destruct (User.role u =? "staff"); simpl; [|reflexivity].
  rewrite Hcast, Hfind, Hown.
  apply String.eqb_neq in Hne. now rewrite Hne.
Qed.


(** C5 (as amended).  For a call-decision sent by a registered staff
    connection on a stored call: if the call is in progress and bound to the
    user of that connection, and the decision is one of accepted, rejected
    and pending, the call becomes completed with the decision, the notes,
    the end time and duration = floor((end time - start time) / 1000)
    seconds, and the sender receives decision-saved; if the call is bound to
    another user, nothing changes and no event is emitted; if the call is
    bound to nobody, nothing changes and the sender receives the generic
    error event. *)
Theorem decision_by_staff (s : Server) (sid : SocketId) (env : Env)
  (callId decision notes : string) (oid : Id) (c : Call.t) (u : User.t) :
  JsMap.get sid (connectedUsers s) = Some u ->
  User.role u = "staff" ->
  castObjectId callId = Some oid ->
  findById oid (calls s) = Some c ->
  (forall d t0,
      Call.status c = InProgress ->
      Call.staffId c = Some (User._id u) ->
      decision_of_string decision = Some d ->
      Call.startTime c = Some t0 ->
      exists s1 outs c1,
        on_call_decision s sid env callId decision notes = (s1, outs) /\
        In (ToSocket sid, decision_saved callId decision) outs /\
        findById oid (calls s1) = Some c1 /\
        c1 = decided d notes (now env) ((now env - t0) / 1000) c /\
        Call.status c1 = Completed /\
        Call.duration c1 = Some ((now env - t0) / 1000)) /\
  (forall owner,
      Call.staffId c = Some owner ->
      owner <> User._id u ->
      on_call_decision s sid env callId decision notes = (s, [])) /\
  (Call.staffId c = None ->
   on_call_decision s sid env callId decision notes
   = (s, decisionFailed sid)).
Proof.
  intros Hu Hrole Hcast Hfind. repeat split.
  - intros d t0 _ Hown Hd Ht0.
    destruct (decision_success s sid env callId decision notes oid c u d t0
                Hu Hrole Hcast Hfind Hown Hd Ht0) as (s1 & outs & H1 & H2 & H3).
    exists s1, outs, (decided d notes (now env) ((now env - t0) / 1000) c).
    repeat split; assumption.
  - intros owner Hown Hne.
    exact (decision_not_owner s sid env callId decision notes oid owner c u
             Hu Hcast Hfind Hown Hne).
  - intros Hown. unfold on_call_decision. rewrite Hu, Hrole. simpl.
    now rewrite Hcast, Hfind, Hown.
Qed.

Lemma decision_by_staff_witness :
  exists s1 outs c1,
    on_call_decision talking "S1" (at_ 65500) firstCall "accepted"
      "follow-up needed" = (s1, outs) /\
    In (ToSocket "S1", decision_saved firstCall "accepted") outs /\
    findById firstCall (calls s1) = Some c1 /\
    c1 = decided DAccepted "follow-up needed" 65500 61
           (acceptedBy (newObjectId 1) 4000 ringingCall) /\
    Call.status c1 = Completed /\
    Call.duration c1 = Some 61.
Proof.
  refine (proj1 (decision_by_staff talking "S1" (at_ 65500) firstCall
                   "accepted" "follow-up needed" firstCall
                   (acceptedBy (newObjectId 1) 4000 ringingCall)
                   (loggedIn 2000 alice) _ _ _ _)
            DAccepted 4000 _ _ _ _);
    vm_compute; reflexivity.
Defined.

(** C5 (as stated) fails twice.  Bob, who is not bound to the call in
    progress, records a decision: nothing changes and his socket receives
    nothing, no not-owner error either.  Alice, who is bound to it, records
    a second decision on the call she has already completed: the decision is
    saved again and the stored call changes. *)
Lemma decision_guards_differ :
  handle talking "S2" (at_ 65500)
    (call_decision firstCall "accepted" "mine") = (talking, []) /\
  option_map Call.status (findById firstCall (calls closed))
  = Some Completed /\
  snd (handle closed "S1" (at_ 99000)
         (call_decision firstCall "rejected" "changed my mind"))
  = [(ToRoom "V", call_completed "rejected" "changed my mind");
     (ToSocket "S1", decision_saved firstCall "rejected")] /\
  option_map Call.notes
    (findById firstCall
       (calls (fst (handle closed "S1" (at_ 99000)
                      (call_decision firstCall "rejected"
                         "changed my mind")))))
  = Some (Some "changed my mind").
Proof. vm_compute. repeat split. Qed.

(** ** Terminal calls *)




(** ** disconnect *)

Lemma disconnect_effect (s : Server) (sid : SocketId) (env : Env) :
  let s' := fst (handle s sid env disconnect) in
  snd (handle s sid env disconnect) = [] /\
  demoCalls s' = demoCalls s /\
  match JsMap.get sid (waitingCalls s) with
  | Some c =>
      calls s' = updateCall (Call._id c) (rejectedAt (now env)) (calls s) /\
      waitingCalls s' = JsMap.delete sid (waitingCalls s)
  | None => calls s' = calls s /\ waitingCalls s' = waitingCalls s
  end.
Proof.
  cbn [handle fst snd]. unfold on_disconnect.
  cbn [connectedUsers set_sockets].
  destruct (JsMap.get sid (connectedUsers s)) as [u|];
    [destruct (User.role u =? "staff")|]; cbn;
    destruct (JsMap.get sid (waitingCalls s)); cbn; auto.
Qed.

(** C3 (as amended).  A disconnect emits no event and touches no demo call.
    If the disconnecting socket has an entry in the waiting-calls map (it is
    the visitor of a call that was stored and has not been accepted), the
    stored call of that entry becomes rejected, every other stored call is
    as before, and the entry is removed; if it has no entry (as the visitor
    or the staff of a call that was accepted), no stored call changes. *)
Theorem disconnect_rejects_waiting_entry (s : Server) (sid : SocketId)
  (env : Env) :
  let s' := fst (handle s sid env disconnect) in
  snd (handle s sid env disconnect) = [] /\
  demoCalls s' = demoCalls s /\
  match JsMap.get sid (waitingCalls s) with
  | Some c =>
      findById (Call._id c) (calls s')
      = option_map (rejectedAt (now env)) (findById (Call._id c) (calls s)) /\
      option_map Call.status (findById (Call._id c) (calls s'))
      = option_map (fun _ => Rejected) (findById (Call._id c) (calls s)) /\
      (forall oid, oid <> Call._id c ->
                   findById oid (calls s') = findById oid (calls s)) /\
      JsMap.get sid (waitingCalls s') = None
  | None => calls s' = calls s
  end.
Proof.
  pose proof (disconnect_effect s sid env) as H. cbv zeta in *.
  destruct H as (Hout & Hdemo & H).
  split; [exact Hout|]. split; [exact Hdemo|].
  destruct (JsMap.get sid (waitingCalls s)) as [c|]; [|tauto].
  destruct H as [Hcalls Hwait]. rewrite Hcalls, Hwait.
  assert (Hfind : findById (Call._id c)
                    (updateCall (Call._id c) (rejectedAt (now env)) (calls s))
                  = option_map (rejectedAt (now env))
                      (findById (Call._id c) (calls s))).
  { destruct (findById (Call._id c) (calls s)) as [stored|] eqn:E; simpl.
    - apply findById_updateCall_same; auto using rejectedAt_id.
    - now rewrite updateCall_absent. }
  split; [exact Hfind|]. split.
  - rewrite Hfind. now destruct (findById (Call._id c) (calls s)).
  - split.
    + intros oid Hne.
      apply findById_updateCall_other; auto using rejectedAt_id.
    + apply get_delete_same.
Qed.

(** C3 (as stated) fails.  While the call is in progress the visitor, or
    the staff socket bound to it, disconnects: the call stays in progress
    and nobody is notified. *)
Lemma disconnect_during_call :
  option_map Call.status (findById firstCall (calls talking))
  = Some InProgress /\
  snd (handle talking "V" (at_ 5000) disconnect) = [] /\
  option_map Call.status
    (findById firstCall
       (calls (fst (handle talking "V" (at_ 5000) disconnect))))
  = Some InProgress /\
  snd (handle talking "S1" (at_ 5000) disconnect) = [] /\
  option_map Call.status
    (findById firstCall
       (calls (fst (handle talking "S1" (at_ 5000) disconnect))))
  = Some InProgress.
Proof. vm_compute. repeat split. Qed.

(** ** Acceptance and the waiting-calls map *)

Lemma in_delete {V : Type} (k k' : string) (v : V) (m : JsMap.t V) :
  In (k', v) (JsMap.delete k m) -> k' <> k /\ In (k', v) m.
Proof.
  induction m as [|[k0 v0] m IH]; simpl; [tauto|].
  destruct (k =? k0) eqn:E.
  - intros H. destruct (IH H) as [Hne Hin]. tauto.
  - intros [H|H].
    + injection H as -> ->. split; [|now left].
      apply String.eqb_neq in E. congruence.
    + destruct (IH H) as [Hne Hin]. tauto.
Qed.

Lemma get_in {V : Type} (k : string) (v : V) (m : JsMap.t V) :
  JsMap.get k m = Some v -> In (k, v) m.
Proof.
  induction m as [|[k0 v0] m IH]; simpl; [discriminate|].
  destruct (k =? k0) eqn:E.
  - intros H. injection H as ->. apply String.eqb_eq in E. subst. now left.
  - intros H. right. now apply IH.
Qed.

Lemma findKey_some {V : Type} (p : V -> bool) (k : string) (m : JsMap.t V) :
  JsMap.findKey p m = Some k -> exists v, In (k, v) m /\ p v = true.
Proof.
  induction m as [|[k0 v0] m IH]; simpl; [discriminate|].
  destruct (p v0) eqn:E.
  - intros H. injection H as ->. exists v0. split; [now left|exact E].
  - intros H. destruct (IH H) as (v & Hin & Hp). exists v. tauto.
Qed.

Lemma findKey_none {V : Type} (p : V -> bool) (m : JsMap.t V) :
  JsMap.findKey p m = None -> forall k v, In (k, v) m -> p v = false.
Proof.
  induction m as [|[k0 v0] m IH]; simpl; [tauto|].
  destruct (p v0) eqn:E; [discriminate|].
  intros H k v [Hin|Hin]; [now injection Hin as -> ->|eauto].
Qed.

(** When the accept names the call by the string its id prints as, and the
    call sits under one key of the waiting-calls map at most, the accept
    leaves no entry for the call behind. *)
Lemma accept_detaches (s : Server) (sid : SocketId) (env : Env) (oid : Id)
  (visitor : SocketId) :
  (forall k c, In (k, c) (waitingCalls s) -> Call._id c = oid ->
               k = visitor) ->
  castObjectId oid = Some oid ->
  (exists c, findById oid (calls s) = Some c /\ Call.status c = Waiting) ->
  (exists u staff, JsMap.get sid (connectedUsers s) = Some u /\
                   User.role u = "staff" /\
                   castObjectId (User._id u) = Some staff) ->
  detached oid (fst (on_accept_call s sid env oid)).
Proof.
  intros Huniq Hcast (c & Hfind & Hst) (u & staff & Hu & Hrole & Hstaff).
  unfold on_accept_call, accept_fetch. rewrite Hu, Hrole. simpl.
  rewrite Hcast, Hfind. simpl. rewrite Hst, Hstaff. simpl.
  destruct (JsMap.findKey _ _) as [k|] eqn:Hk; simpl; intros k' c' Hin Hid.
  - apply in_delete in Hin. destruct Hin as [Hne Hin].
    apply findKey_some in Hk. destruct Hk as (v & Hv & Hp).
    apply String.eqb_eq in Hp.
    rewrite (Huniq k' c' Hin Hid) in Hne.
    rewrite (Huniq k v Hv Hp) in Hne. congruence.
  - pose proof (findKey_none _ _ Hk k' c' Hin) as Hp.
    apply String.eqb_neq in Hp. congruence.
Qed.

(** A disconnect never touches a call that no waiting entry holds. *)
Lemma disconnect_keeps_detached (s : Server) (sid : SocketId) (env : Env)
  (oid : Id) :
  detached oid s ->
  findById oid (calls (fst (handle s sid env disconnect)))
  = findById oid (calls s).
Proof.
  intros Hdet.
  pose proof (disconnect_effect s sid env) as H. cbv zeta in H.
  destruct H as (_ & _ & H).
  destruct (JsMap.get sid (waitingCalls s)) as [c|] eqn:E.
  - destruct H as [-> _].
    apply findById_updateCall_other; auto using rejectedAt_id.
    intros Heq. apply (Hdet sid c); [now apply get_in|congruence].
  - destruct H as [-> _]. reflexivity.
Qed.

(** C9 fails on the code.  Alice accepts the waiting call and names it with
    an upper-case hex digit: the lookup by id finds the call and it goes in
    progress, but the search of the waiting-calls map compares strings, finds
    no entry and removes none; the visitor is not told.  When the visitor
    disconnects afterwards, the call in progress is set to rejected. *)
Lemma uppercase_accept_keeps_entry :
  let accepted := handle ringing "S1" (at_ 4000) (accept_call firstCallUpper) in
  snd accepted
  = [(ToSocket "S1", call_started firstCallUpper (newObjectId 10))] /\
  findById firstCall (calls (fst accepted))
  = Some (acceptedBy (newObjectId 1) 4000 ringingCall) /\
  JsMap.get "V" (waitingCalls (fst accepted)) = Some ringingCall /\
  findById firstCall
    (calls (fst (handle (fst accepted) "V" (at_ 5000) disconnect)))
  = Some (rejectedAt 5000 (acceptedBy (newObjectId 1) 4000 ringingCall)).
Proof. vm_compute. repeat split. Qed.

(** ** Signaling relay *)

Lemma in_room (live : list SocketId) (target r : string) :
  In r (recipients live (ToRoom target)) <-> r = target /\ In target live.
Proof.
  simpl. rewrite filter_In. split.
  - intros [Hin Heq]. apply String.eqb_eq in Heq. subst. tauto.
  - intros [-> Hin]. split; [exact Hin|apply String.eqb_refl].
Qed.

(** C4 (as amended).  An offer, answer or ice-candidate leaves the server
    state unchanged and is forwarded, payload intact and with the id of the
    sending socket as [from], to the target if and only if the target is a
    connected socket; no call is consulted, and nothing else is delivered. *)
Theorem signal_reaches_live_target (s : Server) (sid : SocketId) (env : Env)
  (kind : SignalKind) (target payload : string) :
  fst (handle s sid env (signaling kind target payload)) = s /\
  forall r m,
    In (r, m)
       (deliveries (sockets s)
          (snd (handle s sid env (signaling kind target payload))))
    <-> r = target /\ In target (sockets s) /\ m = signal kind payload sid.
Proof.
  split; [reflexivity|]. intros r m.
  cbn [handle on_signal snd]. unfold deliveries. cbn [flat_map fst snd].
  rewrite app_nil_r, in_map_iff. split.
  - intros (x & Heq & Hin). injection Heq as <- <-.
    apply in_room in Hin. tauto.
  - intros (-> & Hin & ->). exists target. split; [reflexivity|].
    apply in_room. tauto.
Qed.

(** C4 (as stated) fails.  The socket that never registered is party to no
    call, and the call in progress binds the visitor to Alice; its offer to
    the visitor is forwarded all the same. *)
Lemma stranger_offer_forwarded :
  JsMap.get "U" (connectedUsers talking) = None /\
  deliveries (sockets talking)
    (snd (handle talking "U" (at_ 5000) (signaling Offer "V" "v=0 sdp")))
  = [("V", signal Offer "v=0 sdp" "U")].
Proof. vm_compute. split; reflexivity. Qed.

(** ** start-conversation *)

Lemma deliveries_started (live : list SocketId) (sid : SocketId)
  (callId : Id) (name : string) (purpose : option string) (t : Date) :
  deliveries live (started sid callId name purpose t)
  = (map (fun r => (r, new_call_request callId name purpose t)) live
       ++ [(sid, conversation_started sid callId name purpose)])%list.
Proof. unfold deliveries. simpl. reflexivity. Qed.

(** A start-conversation either fails with one error event to the sender,
    or emits the broadcast followed by conversation-started. *)
Lemma start_outcome (s : Server) (sid : SocketId) (env : Env)
  (name email : string) (purpose : option string) :
  (exists reason,
      snd (handle s sid env (start_conversation name email purpose))
      = startFailed sid reason) \/
  (exists callId,
      snd (handle s sid env (start_conversation name email purpose))
      = started sid callId name purpose (now env)).
Proof.
  cbn [handle]. unfold on_start_conversation.
  destruct (readyState s =? 1)%Z.
  - unfold start_mongo.
    destruct (find _ (users s)) as [u|];
      match goal with
      | |- context [existsb ?p ?l] => destruct (existsb p l)
      end; simpl; eauto;
      destruct (requiredString purpose); simpl; eauto.
  - unfold start_demo. simpl. eauto.
Qed.

(** C6 (as amended).  When a start-conversation succeeds (the sender
    receives conversation-started for the new call), the new-call-request
    for that call is delivered to exactly the connected sockets: to every
    one of them, staff, visitor or unregistered, the sender included. *)
Theorem new_call_reaches_every_socket (s : Server) (sid : SocketId)
  (env : Env) (name email : string) (purpose : option string) (callId : Id)
  (r : SocketId) :
  In (ToSocket sid, conversation_started sid callId name purpose)
     (snd (handle s sid env (start_conversation name email purpose))) ->
  (In (r, new_call_request callId name purpose (now env))
      (deliveries (sockets s)
         (snd (handle s sid env (start_conversation name email purpose))))
   <-> In r (sockets s)).
Proof.
  intros Hok.
  destruct (start_outcome s sid env name email purpose)
    as [[reason H]|[callId' H]]; rewrite H in *.
  - simpl in Hok. destruct Hok as [Hok|[]]. discriminate Hok.
  - simpl in Hok. destruct Hok as [Hok|[Hok|[]]]; [discriminate Hok|].
    injection Hok as ->.
    rewrite deliveries_started, in_app_iff, in_map_iff. split.
    + intros [(x & Heq & Hin)|[Heq|[]]].
      * now injection Heq as ->.
      * discriminate Heq.
    + intros Hin. left. now exists r.
Qed.

Lemma new_call_reaches_every_socket_witness :
  In ("U", new_call_request firstCall "Vic" (Some "Support") (now (at_ 3000)))
     (deliveries (sockets (fst (run office (firstn 6 morning))))
        (snd (handle (fst (run office (firstn 6 morning))) "V" (at_ 3000)
                (start_conversation "Vic" "vic@rexbot.test"
                   (Some "Support")))))
  <-> In "U" (sockets (fst (run office (firstn 6 morning)))).
Proof.
  apply (new_call_reaches_every_socket (fst (run office (firstn 6 morning)))
           "V" (at_ 3000) "Vic" "vic@rexbot.test" (Some "Support")
           firstCall "U").
  vm_compute. right. left. reflexivity.
Defined.

(** C6 (as stated) fails.  The broadcast of the visitor's call reaches the
    visitor itself, whose role is client, and the socket that never
    registered. *)
Lemma broadcast_reaches_non_staff :
  option_map User.role (JsMap.get "V" (connectedUsers ringing))
  = Some "client" /\
  JsMap.get "U" (connectedUsers ringing) = None /\
  In ("V", new_call_request firstCall "Vic" (Some "Support") 3000)
     (snd (run office morning)) /\
  In ("U", new_call_request firstCall "Vic" (Some "Support") 3000)
     (snd (run office morning)).
Proof. vm_compute. repeat split; tauto. Qed.

(** With MongoDB connected, a start-conversation whose purpose is missing
    or empty fails with one error event to the sender; no call is stored, in
    either store, no waiting entry is added and nothing is broadcast. *)
Lemma mongo_requires_purpose (s : Server) (sid : SocketId) (env : Env)
  (name email : string) (purpose : option string) :
  readyState s = 1 ->
  requiredString purpose = None ->
  let r := handle s sid env (start_conversation name email purpose) in
  (exists reason, snd r = startFailed sid reason) /\
  calls (fst r) = calls s /\
  waitingCalls (fst r) = waitingCalls s /\
  demoCalls (fst r) = demoCalls s.
Proof.
  intros Hready Hreq. cbn [handle]. unfold on_start_conversation.
  rewrite Hready. cbn [Z.eqb Pos.eqb]. unfold start_mongo. rewrite Hreq.
  destruct (find _ (users s)) as [u|];
    match goal with
    | |- context [existsb ?p ?l] => destruct (existsb p l)
    end; simpl; eauto.
Qed.

(** C7 fails on the code.  The server runs in demo mode and a visitor
    sends start-conversation without a purpose: a demo call with no purpose
    is stored and the new-call-request is broadcast. *)
Lemma demo_call_without_purpose :
  let r := run demoOffice
             [("V", at_ 1000, connection);
              ("V", at_ 3000,
               start_conversation "Vic" "vic@rexbot.test" None)] in
  demoCalls (fst r)
  = [("V", DemoCall.mk "call_3000" "demo_3000" None Waiting 3000)] /\
  snd r
  = [("V", new_call_request "call_3000" "Vic" None 3000);
     ("V", conversation_started "V" "call_3000" "Vic" None)].
Proof. vm_compute. split; reflexivity. Qed.

(** ** The waiting list *)

Lemma insertByCreatedAt_perm (c : Call.t) (l : list Call.t) :
  Permutation (insertByCreatedAt c l) (c :: l).
Proof.
  induction l as [|x l IH]; simpl; [apply Permutation_refl|].
  destruct (Call.createdAt c <=? Call.createdAt x)%Z.
  - apply Permutation_refl.
  - eapply perm_trans; [apply perm_skip, IH|apply perm_swap].
Qed.

Lemma sortByCreatedAt_perm (l : list Call.t) :
  Permutation (sortByCreatedAt l) l.
Proof.
  induction l as [|c l IH]; simpl; [apply perm_nil|].
  eapply perm_trans; [apply insertByCreatedAt_perm|now apply perm_skip].
Qed.

Lemma insertByCreatedAt_sorted (c : Call.t) (l : list Call.t) :
  StronglySorted createdBefore l ->
  StronglySorted createdBefore (insertByCreatedAt c l).
Proof.
  induction 1 as [|x l Hsorted IH Hall]; simpl.
  - constructor; constructor.
  - destruct (Call.createdAt c <=? Call.createdAt x)%Z eqn:E.
    + apply Z.leb_le in E. constructor.
      * now constructor.
      * constructor; [exact E|].
        eapply Forall_impl; [|exact Hall].
        unfold createdBefore. intros a Ha. lia.
    + apply Z.leb_gt in E. constructor; [exact IH|].
      eapply Permutation_Forall.
      * apply Permutation_sym, insertByCreatedAt_perm.
      * constructor; [unfold createdBefore; lia|exact Hall].
Qed.

Lemma sortByCreatedAt_sorted (l : list Call.t) :
  StronglySorted createdBefore (sortByCreatedAt l).
Proof.
  induction l as [|c l IH]; simpl; [constructor|].
  now apply insertByCreatedAt_sorted.
Qed.

Lemma populate_fst (us : list User.t) (l : list Call.t) :
  map fst (map (populate us) l) = l.
Proof.
  induction l as [|c l IH]; simpl; [reflexivity|]. now rewrite IH.
Qed.

(** C8.  In every server state the waiting-calls query returns exactly the
    stored calls whose status is waiting, each as often as it is stored,
    ordered by creation time, oldest first. *)
Theorem listWaiting_fifo (s : Server) :
  Permutation (map fst (listWaiting s))
    (filter (fun c => isWaiting (Call.status c)) (calls s)) /\
  (forall c, In c (map fst (listWaiting s)) <->
             In c (calls s) /\ Call.status c = Waiting) /\
  StronglySorted createdBefore (map fst (listWaiting s)).
Proof.
  unfold listWaiting. rewrite populate_fst.
  split; [apply sortByCreatedAt_perm|]. split.
  - intros c. split.
    + intros H.
      apply (Permutation_in _ (sortByCreatedAt_perm _)) in H.
      apply filter_In in H. destruct H as [Hin Hst]. split; [exact Hin|].
      now destruct (Call.status c).
    + intros [Hin Hst].
      apply (Permutation_in _ (Permutation_sym (sortByCreatedAt_perm _))).
      apply filter_In. split; [exact Hin|]. now rewrite Hst.
  - apply sortByCreatedAt_sorted.
Qed.

(** ** Two runs *)

(** The calls of the two later visitors wait, in the order they were
    created; the call Alice accepted is no longer listed. *)
Example waiting_list_after_accept :
  map (fun e => (Call.purpose (fst e), Call.createdAt (fst e), snd e))
    (listWaiting (fst (run talking queueing)))
  = [("Billing", 4300, Some ("Wen", "wen@rexbot.test"));
     ("Returns", 4400, Some ("Xia", "xia@rexbot.test"))].
Proof. vm_compute. reflexivity. Qed.

(** The whole call: each relayed message reaches its target with the
    sender attached, the call ends completed after 61 seconds and the
    visitor receives the decision with the notes. *)
Example whole_call_log :
  snd (run ringing wholeCall)
  = [("V", call_accepted "Alice" (Some "Sales"));
     ("S1", call_started firstCall (newObjectId 10));
     ("V", signal Offer "offer-sdp" "S1");
     ("S1", signal Answer "answer-sdp" "V");
     ("V", signal IceCandidate "candidate-1" "S1");
     ("S1", signal IceCandidate "candidate-2" "V");
     ("V", call_completed "accepted" "follow-up needed");
     ("S1", decision_saved firstCall "accepted")] /\
  option_map (fun c => (Call.status c, Call.duration c))
    (findById firstCall (calls (fst (run ringing wholeCall))))
  = Some (Completed, Some 61).
Proof. vm_compute. split; reflexivity. Qed.

(** * Further properties of the server *)

(** ** What an event does to the call collection *)

Lemma findById_app (oid : Id) (cs : list Call.t) (c x : Call.t) :
  findById oid cs = Some x -> findById oid (cs ++ [c]) = Some x.
Proof.
  unfold findById. induction cs as [|a cs IH]; simpl; [discriminate|].
  destruct (Call._id a =? oid); [trivial|exact IH].
Qed.

Lemma updateCall_split (oid : Id) (f : Call.t -> Call.t) (cs : list Call.t)
  (c : Call.t) :
  findById oid cs = Some c ->
  exists l1 l2, cs = (l1 ++ c :: l2)%list /\
                updateCall oid f cs = (l1 ++ f c :: l2)%list.
Proof.
  unfold findById. induction cs as [|a cs IH]; simpl; [discriminate|].
  destruct (Call._id a =? oid).
  - intros H. injection H as ->. now exists [], cs.
  - intros H. destruct (IH H) as (l1 & l2 & -> & ->).
    now exists (a :: l1), l2.
Qed.

Lemma handle_calls (s : Server) (sid : SocketId) (env : Env) (ev : Event) :
  CallsChange (now env) (calls s) (calls (fst (handle s sid env ev))).
Proof.
  destruct ev as [|email password|name email purpose|callId
                 |kind target payload|callId decision notes|
                 |missing|missing]; cbn [handle].
  - now apply Untouched.
  - apply Untouched. unfold on_staff_login.
    destruct (readyState s =? 1)%Z; [|reflexivity]. cbn [negb].
    destruct (find _ (users s)) as [u|]; [|reflexivity].
    destruct (User.password u); [|reflexivity].
    destruct (bcryptCompare env); reflexivity.
  - unfold on_start_conversation.
    destruct (readyState s =? 1)%Z; [|now apply Untouched].
    unfold start_mongo.
    destruct (find _ (users s)) as [u|];
      match goal with
      | |- context [existsb ?p ?l] => destruct (existsb p l)
      end; try (now apply Untouched);
      (destruct (requiredString purpose); [|now apply Untouched]);
      eapply Created; cbn; reflexivity.
  - unfold on_accept_call, accept_fetch.
    destruct (JsMap.get sid (connectedUsers s)) as [u|];
      [|now apply Untouched].
    destruct (User.role u =? "staff"); cbn; [|now apply Untouched].
    destruct (castObjectId callId) as [oid|]; [|now apply Untouched].
    unfold accept_commit.
    destruct (findById oid (calls s)) as [c|] eqn:Hfind;
      [|now apply Untouched].
    destruct (Call.status c) eqn:Hst; cbn; try (now apply Untouched).
    destruct (castObjectId (User._id u)) as [staff|]; [|now apply Untouched].
    pose proof (findById_id _ _ _ Hfind) as Hid. rewrite <- Hid in Hfind.
    apply (Accepted _ _ _ c staff Hfind Hst).
    now destruct (JsMap.findKey _ _).
  - now apply Untouched.
  - unfold on_call_decision.
    destruct (JsMap.get sid (connectedUsers s)) as [u|];
      [|now apply Untouched].
    destruct (User.role u =? "staff"); cbn; [|now apply Untouched].
    destruct (castObjectId callId) as [oid|]; [|now apply Untouched].
    destruct (findById oid (calls s)) as [c|] eqn:Hfind;
      [|now apply Untouched].
    destruct (Call.staffId c) as [owner|] eqn:Hown; [|now apply Untouched].
    destruct (owner =? User._id u); cbn; [|now apply Untouched].
    destruct (decision_of_string decision) as [d|]; [|now apply Untouched].
    destruct (Call.startTime c) as [t0|] eqn:Ht0; [|now apply Untouched].
    pose proof (findById_id _ _ _ Hfind) as Hid. rewrite <- Hid in Hfind.
    apply (Decided _ _ _ c d notes (durationSeconds (now env) t0) Hfind);
      [rewrite Hown; discriminate|rewrite Ht0; discriminate|].
    now destruct (JsMap.findKey _ _).
  - pose proof (disconnect_effect s sid env) as H. cbv zeta in H.
    cbn [handle] in H. destruct H as (_ & _ & H).
    destruct (JsMap.get sid (waitingCalls s)) as [c|].
    + destruct H as [H _]. now apply (Dropped _ _ _ (Call._id c)).
    + destruct H as [H _]. now apply Untouched.
  - destruct missing; now apply Untouched.
  - destruct missing; now apply Untouched.
Qed.

Lemma run_cons_fst (s : Server) (sid : SocketId) (env : Env) (ev : Event)
  (rest : list (SocketId * Env * Event)) :
  fst (run s ((sid, env, ev) :: rest))
  = fst (run (fst (handle s sid env ev)) rest).
Proof.
  cbn [run]. destruct (handle s sid env ev) as [s1 outs].
  cbn [fst]. now destruct (run s1 rest).
Qed.

(** An invariant of single events holds along every run. *)
Lemma run_invariant (P : Server -> Prop) :
  (forall s sid env ev, P s -> P (fst (handle s sid env ev))) ->
  forall evs s, P s -> P (fst (run s evs)).
Proof.
  intros Hstep evs.
  induction evs as [|[[sid env] ev] rest IH]; intros s Hs; [exact Hs|].
  rewrite run_cons_fst. apply IH, Hstep, Hs.
Qed.

Lemma CallsChange_well_formed (t : Date) (cs cs' : list Call.t) :
  CallsChange t cs cs' ->
  Forall wellFormedCall cs -> Forall wellFormedCall cs'.
Proof.
  intros [->|c -> Hst Hstaff Hstart|c staff Hfind Hst ->
         |c d n dur Hfind Hstaff Hstart ->|oid ->] Hall.
  - exact Hall.
  - apply Forall_app. split; [exact Hall|]. constructor; [|constructor].
    unfold wellFormedCall. rewrite Hst. tauto.
  - destruct (updateCall_split _ (acceptedBy staff t) _ _ Hfind)
      as (l1 & l2 & Hcs & ->).
    rewrite Hcs in Hall. apply Forall_app in Hall. destruct Hall as [H1 H2].
    apply Forall_app. split; [exact H1|]. inversion H2; subst.
    constructor; [|assumption].
    unfold wellFormedCall. simpl. split; discriminate.
  - destruct (updateCall_split _ (decided d n t dur) _ _ Hfind)
      as (l1 & l2 & Hcs & ->).
    rewrite Hcs in Hall. apply Forall_app in Hall. destruct Hall as [H1 H2].
    apply Forall_app. split; [exact H1|]. inversion H2; subst.
    constructor; [|assumption].
    unfold wellFormedCall. simpl. repeat split; (assumption || discriminate).
  - destruct (findById oid cs) as [c|] eqn:Hfind.
    + destruct (updateCall_split _ (rejectedAt t) _ _ Hfind)
        as (l1 & l2 & Hcs & ->).
      rewrite Hcs in Hall. apply Forall_app in Hall.
      destruct Hall as [H1 H2].
      apply Forall_app. split; [exact H1|]. inversion H2; subst.
      constructor; [|assumption]. exact I.
    + now rewrite updateCall_absent.
Qed.

(** X1.  Along every run of socket events the stored calls keep the shape
    their status promises: a waiting call has no staff and no start time, a
    call in progress has both, a completed call has staff, start time, end
    time and duration. *)
Theorem calls_stay_well_formed (s : Server)
  (evs : list (SocketId * Env * Event)) :
  Forall wellFormedCall (calls s) ->
  Forall wellFormedCall (calls (fst (run s evs))).
Proof.
  revert s. apply (run_invariant (fun s => Forall wellFormedCall (calls s))).
  intros s sid env ev. apply CallsChange_well_formed with (t := now env).
  apply handle_calls.
Qed.

Lemma calls_stay_well_formed_witness :
  Forall wellFormedCall
    (calls (fst (run ringing (wholeCall ++ queueing)%list))).
Proof.
  apply (calls_stay_well_formed ringing (wholeCall ++ queueing)%list).
  vm_compute. repeat constructor.
Defined.

Lemma evolves_refl (c : Call.t) : evolves c c.
Proof. unfold evolves. tauto. Qed.

Lemma evolves_trans (a b c : Call.t) :
  evolves a b -> evolves b c -> evolves a c.
Proof.
  unfold evolves.
  intros (A1 & A2 & A3 & A4 & A5 & A6) (B1 & B2 & B3 & B4 & B5 & B6).
  repeat split; try congruence.
  intros Hw. pose proof (B6 Hw) as ->. now apply A6.
Qed.

Lemma evolves_written (f : Call.t -> Call.t) (c : Call.t) :
  Call._id (f c) = Call._id c ->
  Call.clientId (f c) = Call.clientId c ->
  Call.purpose (f c) = Call.purpose c ->
  Call.callType (f c) = Call.callType c ->
  Call.createdAt (f c) = Call.createdAt c ->
  Call.status (f c) <> Waiting ->
  evolves c (f c).
Proof. unfold evolves. intros. repeat split; tauto. Qed.

Lemma updateCall_evolves (oid0 oid : Id) (f : Call.t -> Call.t)
  (cs : list Call.t) (c : Call.t) :
  (forall x, Call._id (f x) = Call._id x) ->
  (forall x, evolves x (f x)) ->
  findById oid cs = Some c ->
  exists c', findById oid (updateCall oid0 f cs) = Some c' /\ evolves c c'.
Proof.
  intros Hid Hev Hfind.
  destruct (String.eqb_spec oid oid0) as [->|Hne].
  - exists (f c). split; [now apply findById_updateCall_same|apply Hev].
  - exists c. split; [|apply evolves_refl].
    now rewrite findById_updateCall_other.
Qed.

Lemma CallsChange_evolves (t : Date) (cs cs' : list Call.t) (oid : Id)
  (c : Call.t) :
  CallsChange t cs cs' ->
  findById oid cs = Some c ->
  exists c', findById oid cs' = Some c' /\ evolves c c'.
Proof.
  intros [->|c0 -> _ _ _|c0 staff _ _ ->|c0 d n dur _ _ _ ->|oid0 ->] Hfind.
  - exists c. split; [exact Hfind|apply evolves_refl].
  - exists c. split; [now apply findById_app|apply evolves_refl].
  - apply updateCall_evolves; auto.
    intros x. apply evolves_written; try reflexivity. discriminate.
  - apply updateCall_evolves; auto.
    intros x. apply evolves_written; try reflexivity. discriminate.
  - apply updateCall_evolves; auto.
    intros x. apply evolves_written; try reflexivity. discriminate.
Qed.

(** X2.  A stored call is never removed by socket events, and along every
    run its id, client, purpose, call type and creation time stay as they
    were; if it still waits at the end, nothing at all was written to it, so
    a call that has left the waiting state never waits again. *)
Theorem stored_call_evolves (s : Server)
  (evs : list (SocketId * Env * Event)) (oid : Id) (c : Call.t) :
  findById oid (calls s) = Some c ->
  exists c', findById oid (calls (fst (run s evs))) = Some c' /\
             evolves c c' /\
             (Call.status c <> Waiting -> Call.status c' <> Waiting).
Proof.
  revert s c.
  induction evs as [|[[sid env] ev] rest IH]; intros s c Hfind.
  - exists c. split; [exact Hfind|]. split; [apply evolves_refl|tauto].
  - rewrite run_cons_fst.
    destruct (CallsChange_evolves _ _ _ oid c (handle_calls s sid env ev)
                Hfind) as (c1 & Hfind1 & Hev1).
    destruct (IH _ _ Hfind1) as (c' & Hfind' & Hev' & _).
    exists c'. split; [exact Hfind'|].
    pose proof (evolves_trans _ _ _ Hev1 Hev') as Hev.
    split; [exact Hev|].
    intros Hnw Hw. destruct Hev as (_ & _ & _ & _ & _ & Hsame).
    rewrite (Hsame Hw) in Hw. contradiction.
Qed.

Lemma stored_call_evolves_witness :
  exists c', findById firstCall
               (calls (fst (run ringing (wholeCall ++ queueing)%list)))
             = Some c' /\
             evolves ringingCall c' /\
             (Call.status ringingCall <> Waiting ->
              Call.status c' <> Waiting).
Proof.
  apply (stored_call_evolves ringing (wholeCall ++ queueing)%list firstCall
           ringingCall).
  vm_compute. reflexivity.
Defined.

(** ** Fields no socket event writes *)

Lemma disconnect_fields (s : Server) (sid : SocketId) (env : Env) :
  conversations (on_disconnect s sid env) = conversations s /\
  readyState (on_disconnect s sid env) = readyState s /\
  demoCalls (on_disconnect s sid env) = demoCalls s /\
  sockets (on_disconnect s sid env) = sockets s.
Proof.
  unfold on_disconnect.
  destruct (JsMap.get sid (connectedUsers s)) as [u|];
    [destruct (User.role u =? "staff")|]; cbn;
    destruct (JsMap.get sid (waitingCalls s)); cbn; auto.
Qed.

Lemma start_fields (p : Conversation.t -> bool) (s : Server)
  (sid : SocketId) (env : Env) (name email : string)
  (purpose : option string) :
  let s' := fst (on_start_conversation s sid env name email purpose) in
  readyState s' = readyState s /\
  sockets s' = sockets s /\
  (existsb p (conversations s) = true ->
   existsb p (conversations s') = true).
Proof.
  unfold on_start_conversation.
  destruct (readyState s =? 1)%Z; [|cbn; auto].
  unfold start_mongo.
  destruct (find _ (users s)) as [u|];
    match goal with
    | |- context [existsb ?q ?l] => destruct (existsb q l)
    end; cbn; auto;
    destruct (requiredString purpose); cbn;
    (split; [reflexivity|]); (split; [reflexivity|]);
    intros H; rewrite existsb_app, H; reflexivity.
Qed.

Lemma handle_readyState (s : Server) (sid : SocketId) (env : Env)
  (ev : Event) :
  readyState (fst (handle s sid env ev)) = readyState s.
Proof.
  destruct ev as [|email password|name email purpose|callId
                 |kind target payload|callId decision notes|
                 |missing|missing];
    cbn [handle fst].
  - reflexivity.
  - unfold on_staff_login. branches; reflexivity.
  - apply (start_fields (fun _ => true)).
  - unfold on_accept_call, accept_fetch, accept_commit.
    branches; reflexivity.
  - reflexivity.
  - unfold on_call_decision. branches; reflexivity.
  - now rewrite (proj1 (proj2 (disconnect_fields _ sid env))).
  - now destruct missing.
  - now destruct missing.
Qed.






(** ** staff-login *)

Lemma get_set_same {V : Type} (k : string) (v : V) (m : JsMap.t V) :
  JsMap.get k (JsMap.set k v m) = Some v.
Proof.
  induction m as [|[k0 v0] m IH]; simpl.
  - now rewrite String.eqb_refl.
  - destruct (k =? k0) eqn:E; simpl; [now rewrite String.eqb_refl|].
    now rewrite E.
Qed.

Lemma get_set_other {V : Type} (k k' : string) (v : V) (m : JsMap.t V) :
  k' <> k -> JsMap.get k' (JsMap.set k v m) = JsMap.get k' m.
Proof.
  intros Hne. apply String.eqb_neq in Hne.
  induction m as [|[k0 v0] m IH]; simpl.
  - now rewrite Hne.
  - destruct (k =? k0) eqn:E; simpl.
    + apply String.eqb_eq in E. subst k0. now rewrite Hne.
    + now rewrite IH.
Qed.

Lemma sortByCreatedAt_length (l : list Call.t) :
  List.length (sortByCreatedAt l) = List.length l.
Proof. apply Permutation_length, sortByCreatedAt_perm. Qed.

(** X4.  A staff-login either fails, leaving the server state untouched and
    answering one login-error, or succeeds: the socket is then registered
    under the stored staff account and is sent login-success followed by the
    number of waiting calls, which is the length of the list the
    waiting-calls route returns. *)
Theorem staff_login_outcome (s : Server) (sid : SocketId) (env : Env)
  (email password : string) :
  let r := handle s sid env (staff_login email password) in
  (fst r = s /\ exists message, snd r = [(ToSocket sid, login_error message)])
  \/
  (exists user,
      In user (users s) /\ User.email user = email /\
      User.role user = "staff" /\
      JsMap.get sid (connectedUsers (fst r))
      = Some (loggedIn (now env) user) /\
      calls (fst r) = calls s /\
      snd r
      = [(ToSocket sid,
          login_success (User._id user) (User.name user)
            (User.department user));
         (ToSocket sid,
          waiting_calls (List.length (listWaiting (fst r))))]).
Proof.
  cbn [handle]. unfold on_staff_login.
  destruct (readyState s =? 1)%Z; cbn [negb];
    [|left; split; [reflexivity|eexists; reflexivity]].
  destruct (find _ (users s)) as [user|] eqn:Hfind;
    [|left; split; [reflexivity|eexists; reflexivity]].
  destruct (User.password user);
    [|left; split; [reflexivity|eexists; reflexivity]].
  destruct (bcryptCompare env); cbn [negb];
    [|left; split; [reflexivity|eexists; reflexivity]].
  right. exists user. apply find_some in Hfind. destruct Hfind as [Hin Hp].
  apply andb_prop in Hp. destruct Hp as [He Hr].
  apply String.eqb_eq in He, Hr.
  repeat split; try assumption.
  - cbn. apply get_set_same.
  - cbn [fst snd]. unfold listWaiting.
    now rewrite length_map, sortByCreatedAt_length.
Qed.

(** X5.  An email that no stored staff account bears cannot log in: whatever
    the password and whatever bcrypt answers, the state is untouched and the
    socket is sent one login-error.  With MongoDB connected the lookup
    returns null and the message is 'Invalid credentials'; without it
    [User.findOne] throws and the catch answers 'Login failed'.  A client
    account is no staff account, so its email and password do not open
    staff-login. *)
Theorem staff_login_needs_staff_account (s : Server) (sid : SocketId)
  (env : Env) (email password : string) :
  (forall u, In u (users s) -> User.email u = email ->
             User.role u <> "staff") ->
  handle s sid env (staff_login email password)
  = (s, [(ToSocket sid,
          login_error (if (readyState s =? 1)%Z then "Invalid credentials"
                       else "Login failed"))]).
Proof.
  intros Hnone. cbn [handle]. unfold on_staff_login.
  destruct (readyState s =? 1)%Z; cbn [negb]; [|reflexivity].
  destruct (find _ (users s)) as [user|] eqn:Hfind; [|reflexivity].
  apply find_some in Hfind. destruct Hfind as [Hin Hp].
  apply andb_prop in Hp. destruct Hp as [He Hr].
  apply String.eqb_eq in He, Hr. now destruct (Hnone user Hin He).
Qed.

Lemma staff_login_needs_staff_account_witness :
  handle ringing "V" (mkEnv 5000 true "$2a$x")
    (staff_login "vic@rexbot.test" "whatever")
  = (ringing, [(ToSocket "V", login_error "Invalid credentials")]) /\
  handle demoOffice "V" (mkEnv 5000 true "$2a$x")
    (staff_login "nobody@rexbot.test" "whatever")
  = (demoOffice, [(ToSocket "V", login_error "Login failed")]).
Proof.
  split.
  - apply (staff_login_needs_staff_account ringing "V"
             (mkEnv 5000 true "$2a$x") "vic@rexbot.test" "whatever").
    intros u Hin. vm_compute in Hin.
    destruct Hin as [<-|[<-|[<-|[]]]]; cbn; (discriminate || congruence).
  - apply (staff_login_needs_staff_account demoOffice "V"
             (mkEnv 5000 true "$2a$x") "nobody@rexbot.test" "whatever").
    intros u Hin. vm_compute in Hin. tauto.
Defined.

(** ** start-conversation and the account of the visitor *)

(** X6.  With MongoDB connected, a start-conversation whose email is the one
    of a stored account registers the socket under that account as it is
    stored, role included, and creates no account; no password is asked.
    When the account is a staff account the socket passes the staff guard of
    accept-call from then on. *)
Theorem start_conversation_adopts_account (s : Server) (sid : SocketId)
  (env : Env) (name email : string) (purpose : option string) (callId : Id)
  (u : User.t) :
  readyState s = 1 ->
  find (fun x => User.email x =? email) (users s) = Some u ->
  In (ToSocket sid, conversation_started sid callId name purpose)
     (snd (handle s sid env (start_conversation name email purpose))) ->
  let s' := fst (handle s sid env (start_conversation name email purpose)) in
  JsMap.get sid (connectedUsers s') = Some u /\
  users s' = users s /\
  (User.role u = "staff" ->
   forall cid oid, castObjectId cid = Some oid ->
                   accept_fetch s' sid cid
                   = Fetched u (findById oid (calls s'))).
Proof.
  intros Hready Hfind. cbn [handle]. unfold on_start_conversation.
  rewrite Hready. cbn [Z.eqb Pos.eqb]. unfold start_mongo. rewrite Hfind.
  destruct (existsb _ (conversations s)); cbn;
    [intros [H|[]]; discriminate H|].
  destruct (requiredString purpose); cbn;
    [|intros [H|[]]; discriminate H].
  intros _. split; [apply get_set_same|]. split; [reflexivity|].
  intros Hrole cid oid Hcast. unfold accept_fetch. cbn.
  now rewrite get_set_same, Hrole, Hcast.
Qed.

(** Alice's email typed into the visitor form. *)
Lemma start_conversation_adopts_account_witness :
  let s0 := fst (run office (firstn 6 morning)) in
  let s' := fst (handle s0 "V" (at_ 3000)
                   (start_conversation "Mallory" "alice@rexbot.test"
                      (Some "Support"))) in
  JsMap.get "V" (connectedUsers s') = Some (loggedIn 2000 alice) /\
  users s' = users s0 /\
  (User.role (loggedIn 2000 alice) = "staff" ->
   forall cid oid, castObjectId cid = Some oid ->
                   accept_fetch s' "V" cid
                   = Fetched (loggedIn 2000 alice) (findById oid (calls s'))).
Proof.
  apply (start_conversation_adopts_account
           (fst (run office (firstn 6 morning))) "V" (at_ 3000) "Mallory"
           "alice@rexbot.test" (Some "Support") (newObjectId 10)
           (loggedIn 2000 alice)).
  - vm_compute. reflexivity.
  - vm_compute. reflexivity.
  - vm_compute. right. left. reflexivity.
Defined.

(** ** Call ids and decisions that the schema refuses *)

(** X7.  For a registered staff connection, a call id that is not a string
    of 24 hex digits makes accept-call and call-decision answer their
    generic error event, while a well-formed id of no stored call is
    ignored in silence; neither changes the server state. *)
Theorem unknown_or_malformed_call_id (s : Server) (sid : SocketId)
  (env : Env) (callId decision notes : string) (u : User.t) :
  JsMap.get sid (connectedUsers s) = Some u ->
  User.role u = "staff" ->
  match castObjectId callId with
  | None =>
      handle s sid env (accept_call callId) = (s, acceptFailed sid) /\
      handle s sid env (call_decision callId decision notes)
      = (s, decisionFailed sid)
  | Some oid =>
      findById oid (calls s) = None ->
      handle s sid env (accept_call callId) = (s, []) /\
      handle s sid env (call_decision callId decision notes) = (s, [])
  end.
Proof.
  intros Hu Hrole. cbn [handle].
  unfold on_accept_call, accept_fetch, on_call_decision.
  rewrite Hu, Hrole. cbn.
  destruct (castObjectId callId) as [oid|]; [|split; reflexivity].
  intros ->. split; reflexivity.
Qed.

Lemma unknown_or_malformed_call_id_witness :
  handle ringing "S1" (at_ 4000) (accept_call "call_3000")
  = (ringing, acceptFailed "S1") /\
  handle ringing "S1" (at_ 4000) (call_decision "call_3000" "accepted" "")
  = (ringing, decisionFailed "S1").
Proof.
  apply (unknown_or_malformed_call_id ringing "S1" (at_ 4000) "call_3000"
           "accepted" "" (loggedIn 2000 alice)); vm_compute; reflexivity.
Defined.

(** X8.  A decision that is not one of accepted, rejected and pending is
    never stored: whoever sends it and whatever the call, the server state
    is unchanged, and the sender receives nothing or the generic error
    event. *)
Theorem decision_outside_enum (s : Server) (sid : SocketId) (env : Env)
  (callId decision notes : string) :
  decision_of_string decision = None ->
  handle s sid env (call_decision callId decision notes) = (s, []) \/
  handle s sid env (call_decision callId decision notes)
  = (s, decisionFailed sid).
Proof.
  intros Hd. cbn [handle]. unfold on_call_decision. rewrite Hd.
  branches; auto.
Qed.

Lemma decision_outside_enum_witness :
  handle talking "S1" (at_ 65500)
    (call_decision firstCall "maybe" "not sure") = (talking, []) \/
  handle talking "S1" (at_ 65500)
    (call_decision firstCall "maybe" "not sure")
  = (talking, decisionFailed "S1").
Proof.
  apply (decision_outside_enum talking "S1" (at_ 65500) firstCall "maybe"
           "not sure").
  reflexivity.
Defined.

(** ** disconnect and the registration of a socket *)

Lemma disconnect_connected (s : Server) (sid : SocketId) (env : Env) :
  connectedUsers (on_disconnect s sid env)
  = JsMap.delete sid (connectedUsers s) /\
  waitingCalls (on_disconnect s sid env)
  = JsMap.delete sid (waitingCalls s).
Proof.
  assert (Hdel : forall (V : Type) (m : JsMap.t V),
             JsMap.get sid m = None -> JsMap.delete sid m = m).
  { intros V m. induction m as [|[k v] m IH]; simpl; [reflexivity|].
    destruct (sid =? k); [discriminate|]. intros H. now rewrite IH. }
  unfold on_disconnect.
  destruct (JsMap.get sid (connectedUsers s)) as [u|] eqn:Hu;
    [destruct (User.role u =? "staff")|]; cbn;
    destruct (JsMap.get sid (waitingCalls s)) eqn:Hw; cbn;
    rewrite ?(Hdel _ _ Hu), ?(Hdel _ _ Hw); auto.
Qed.

(** X9.  The state the disconnect handler of a socket leaves, when it has
    run from its first statement to its last on a state no other handler is
    working on: the socket has no entry in the connected-users map nor in
    the waiting-calls map and is not among the connected sockets, while the
    entries of every other socket are as before.  An accept-call or
    call-decision handled in that state under the id of the socket changes
    nothing; it emits nothing when it carries a payload, with or without a
    [callId], and the error event of its handler when it carries none.  What
    a handler of the socket that is still suspended at an [await] writes
    once it resumes is outside this statement. *)
Theorem disconnect_unregisters (s : Server) (sid : SocketId) (env : Env) :
  let s' := fst (handle s sid env disconnect) in
  JsMap.get sid (connectedUsers s') = None /\
  JsMap.get sid (waitingCalls s') = None /\
  ~ In sid (sockets s') /\
  (forall k, k <> sid ->
             JsMap.get k (connectedUsers s') = JsMap.get k (connectedUsers s)
             /\ JsMap.get k (waitingCalls s') = JsMap.get k (waitingCalls s)
             /\ (In k (sockets s') <-> In k (sockets s))) /\
  (forall env' callId decision notes,
      handle s' sid env' (accept_call callId) = (s', []) /\
      handle s' sid env' (call_decision callId decision notes) = (s', []) /\
      handle s' sid env' (accept_call_without NoCallId) = (s', []) /\
      handle s' sid env' (call_decision_without NoCallId) = (s', []) /\
      handle s' sid env' (accept_call_without NoPayload)
      = (s', [(ToSocket sid, error_event "Failed to accept call")]) /\
      handle s' sid env' (call_decision_without NoPayload)
      = (s', [(ToSocket sid, error_event "Failed to save decision")])).
Proof.
  cbn [handle fst].
  set (s0 := set_sockets _ s).
  destruct (disconnect_connected s0 sid env) as [Hc Hw].
  destruct (disconnect_fields s0 sid env) as (_ & _ & _ & Hs).
  assert (Hgone : JsMap.get sid (connectedUsers (on_disconnect s0 sid env))
                  = None)
    by (rewrite Hc; apply get_delete_same).
  split; [exact Hgone|]. split; [rewrite Hw; apply get_delete_same|].
  split.
  - rewrite Hs. unfold s0. cbn. rewrite filter_In.
    intros [_ H]. now rewrite String.eqb_refl in H.
  - split.
    + intros k Hne. rewrite Hc, Hw, Hs. unfold s0. cbn.
      rewrite !get_delete_other by exact Hne.
      split; [reflexivity|]. split; [reflexivity|].
      rewrite filter_In. apply String.eqb_neq in Hne. rewrite Hne. tauto.
    + intros env' callId decision notes. cbn [handle on_incomplete].
      unfold on_accept_call, accept_fetch, on_call_decision.
      rewrite Hgone. repeat split.
Qed.

(** ** Staff availability *)

Lemma updateUser_ids (oid : Id) (f : User.t -> User.t) (us : list User.t) :
  (forall x, User._id (f x) = User._id x) ->
  map User._id (updateUser oid f us) = map User._id us.
Proof.
  intros Hf. induction us as [|a us IH]; simpl; [reflexivity|].
  destruct (User._id a =? oid); simpl; [now rewrite Hf|now rewrite IH].
Qed.

Lemma updateUser_emails (oid : Id) (f : User.t -> User.t)
  (us : list User.t) :
  (forall x, User.email (f x) = User.email x) ->
  map User.email (updateUser oid f us) = map User.email us.
Proof.
  intros Hf. induction us as [|a us IH]; simpl; [reflexivity|].
  destruct (User._id a =? oid); simpl; [now rewrite Hf|now rewrite IH].
Qed.

(** With unique ids, the documents after an update are the untouched ones
    and the image of the one with the id. *)
Lemma in_updateUser (oid : Id) (f : User.t -> User.t) (us : list User.t)
  (x : User.t) :
  NoDup (map User._id us) ->
  In x (updateUser oid f us) ->
  (In x us /\ User._id x <> oid) \/
  (exists u, In u us /\ User._id u = oid /\ x = f u).
Proof.
  induction us as [|a us IH]; simpl; [tauto|].
  intros Hnd. inversion Hnd as [|? ? Hnotin Hnd']; subst.
  destruct (User._id a =? oid) eqn:E.
  - apply String.eqb_eq in E. intros [<-|Hin].
    + right. exists a. tauto.
    + left. split; [now right|]. intros Heq. apply Hnotin.
      rewrite E, <- Heq. now apply in_map.
  - apply String.eqb_neq in E. intros [<-|Hin].
    + left. tauto.
    + destruct (IH Hnd' Hin) as [[H1 H2]|(u & H1 & H2 & H3)].
      * left. tauto.
      * right. exists u. tauto.
Qed.

Lemma updateUser_in (f : User.t -> User.t) (us : list User.t) (u : User.t) :
  NoDup (map User._id us) ->
  In u us ->
  In (f u) (updateUser (User._id u) f us).
Proof.
  induction us as [|a us IH]; simpl; [tauto|].
  intros Hnd. inversion Hnd as [|? ? Hnotin Hnd']; subst.
  destruct (User._id a =? User._id u) eqn:E.
  - apply String.eqb_eq in E. intros [->|Hin]; [now left|].
    exfalso. apply Hnotin. rewrite E. now apply in_map.
  - intros [->|Hin]; [now rewrite String.eqb_refl in E|].
    right. now apply IH.
Qed.

Lemma disconnect_users (s : Server) (sid : SocketId) (env : Env)
  (doc : User.t) :
  JsMap.get sid (connectedUsers s) = Some doc ->
  User.role doc = "staff" ->
  staffAvailable (on_disconnect s sid env)
  = staffAvailable
      (set_users (updateUser (User._id doc) (loggedOut doc (now env))
                    (users s)) s).
Proof.
  intros Hdoc Hrole. unfold on_disconnect, staffAvailable.
  rewrite Hdoc, Hrole. cbn.
  destruct (JsMap.get sid (waitingCalls s)); reflexivity.
Qed.

(** X10.  Availability follows the last login or disconnect of an account,
    not the sockets it has open.  With unique user ids: after a successful
    staff-login the account is in the list of available staff; after the
    disconnect of a socket registered under a staff account that was
    available, no entry of that account is in the list, whether or not
    another socket is still logged in under it. *)
Theorem availability_follows_last_event (s : Server) (sid : SocketId)
  (env : Env) :
  NoDup (map User._id (users s)) ->
  (forall email password id name department,
      In (ToSocket sid, login_success id name department)
         (snd (handle s sid env (staff_login email password))) ->
      In (id, name, department, Some (now env))
         (staffAvailable (fst (handle s sid env
                                 (staff_login email password))))) /\
  (forall doc,
      JsMap.get sid (connectedUsers s) = Some doc ->
      User.role doc = "staff" ->
      User.isAvailable doc = true ->
      forall entry,
        In entry (staffAvailable (fst (handle s sid env disconnect))) ->
        fst (fst (fst entry)) <> User._id doc).
Proof.
  intros Hnd. split.
  - intros email password id name department.
    cbn [handle]. unfold on_staff_login.
    destruct (readyState s =? 1)%Z; cbn [negb];
      [|intros [H|[]]; discriminate H].
    destruct (find _ (users s)) as [user|] eqn:Hfind;
      [|intros [H|[]]; discriminate H].
    destruct (User.password user); [|intros [H|[]]; discriminate H].
    destruct (bcryptCompare env); cbn [negb];
      [|intros [H|[]]; discriminate H].
    cbn [snd fst]. intros [H|[H|[]]]; [|discriminate H].
    injection H as <- <- <-.
    apply find_some in Hfind. destruct Hfind as [Hin Hp].
    apply andb_prop in Hp. destruct Hp as [_ Hr].
    unfold staffAvailable. cbn.
    apply (in_map (fun u => (User._id u, User.name u, User.department u,
                             User.lastActive u))
             _ (loggedIn (now env) user)).
    apply filter_In. split; [now apply updateUser_in|].
    cbn. now rewrite Hr.
  - intros doc Hdoc Hrole Hav entry. cbn [handle fst].
    rewrite (disconnect_users _ sid env doc) by assumption.
    cbn [users set_sockets].
    unfold staffAvailable. rewrite in_map_iff.
    intros (x & <- & Hin). cbn [fst].
    apply filter_In in Hin. destruct Hin as [Hin Hlisted].
    destruct (in_updateUser _ _ _ _ Hnd Hin)
      as [[_ Hne]|(u & _ & _ & ->)]; [exact Hne|].
    apply andb_prop in Hlisted. destruct Hlisted as [_ Hav'].
    cbn in Hav'. rewrite Hav in Hav'. discriminate Hav'.
Qed.

(** Alice closes her second socket: she stays logged in on the first and is
    no longer listed. *)
Lemma availability_follows_last_event_witness :
  JsMap.get "S1" (connectedUsers (fst (handle twoSockets "S3" (at_ 6000)
                                         disconnect)))
  = Some (loggedIn 2000 alice) /\
  forall entry,
    In entry (staffAvailable (fst (handle twoSockets "S3" (at_ 6000)
                                     disconnect))) ->
    fst (fst (fst entry)) <> User._id (loggedIn 5001 alice).
Proof.
  split; [vm_compute; reflexivity|].
  refine (proj2 (availability_follows_last_event twoSockets "S3" (at_ 6000) _)
            (loggedIn 5001 alice) _ _ _).
  - vm_compute.
    repeat (constructor; [simpl; intuition discriminate|]). constructor.
  - vm_compute. reflexivity.
  - reflexivity.
  - reflexivity.
Defined.

(** ** One account per email *)

Lemma NoDup_snoc {A : Type} (l : list A) (a : A) :
  NoDup l -> ~ In a l -> NoDup (l ++ [a]).
Proof.
  induction l as [|x l IH]; simpl; intros Hnd Hnotin.
  - constructor; [tauto|constructor].
  - inversion Hnd; subst. constructor.
    + rewrite in_app_iff. simpl. intros [H|[H|[]]]; [tauto|].
      apply Hnotin. now left.
    + apply IH; [assumption|tauto].
Qed.

Lemma handle_emails_unique (s : Server) (sid : SocketId) (env : Env)
  (ev : Event) :
  NoDup (map User.email (users s)) ->
  NoDup (map User.email (users (fst (handle s sid env ev)))).
Proof.
  intros Hnd.
  destruct ev as [|email password|name email purpose|callId
                 |kind target payload|callId decision notes|
                 |missing|missing];
    cbn [handle fst].
  - exact Hnd.
  - unfold on_staff_login. branches; cbn; try exact Hnd.
    now rewrite updateUser_emails.
  - unfold on_start_conversation.
    destruct (readyState s =? 1)%Z; [|exact Hnd].
    unfold start_mongo.
    destruct (find _ (users s)) as [u|] eqn:Hfind.
    + branches; exact Hnd.
    + assert (Hnew : NoDup (map User.email (users s) ++ [email])).
      { apply NoDup_snoc; [exact Hnd|].
        rewrite in_map_iff. intros (x & Heq & Hin).
        pose proof (find_none _ _ Hfind x Hin) as Hx. cbn in Hx.
        rewrite Heq, String.eqb_refl in Hx. discriminate Hx. }
      branches; cbn; rewrite map_app; exact Hnew.
  - unfold on_accept_call, accept_fetch, accept_commit.
    branches; exact Hnd.
  - exact Hnd.
  - unfold on_call_decision. branches; exact Hnd.
  - unfold on_disconnect. cbn [connectedUsers set_sockets].
    branches; cbn; try exact Hnd; now rewrite updateUser_emails.
  - now destruct missing.
  - now destruct missing.
Qed.

(** X11.  Socket events never give an email a second account: if the stored
    accounts have pairwise distinct emails, they still have after any run
    of events, start-conversation creating an account only for an email
    that has none. *)
Theorem emails_stay_unique (s : Server)
  (evs : list (SocketId * Env * Event)) :
  NoDup (map User.email (users s)) ->
  NoDup (map User.email (users (fst (run s evs)))).
Proof.
  revert s.
  apply (run_invariant (fun s => NoDup (map User.email (users s)))).
  intros s sid env ev. apply handle_emails_unique.
Qed.

Lemma emails_stay_unique_witness :
  NoDup (map User.email
           (users (fst (run office (morning ++ wholeCall ++ queueing)%list)))).
Proof.
  apply (emails_stay_unique office (morning ++ wholeCall ++ queueing)%list).
  vm_compute.
  repeat (constructor; [simpl; intuition discriminate|]). constructor.
Defined.

(** ** The call history of a staff member *)

Lemma insertNewest_perm (c : Call.t) (l : list Call.t) :
  Permutation (insertNewest c l) (c :: l).
Proof.
  induction l as [|x l IH]; simpl; [apply Permutation_refl|].
  destruct (Call.createdAt x <=? Call.createdAt c)%Z.
  - apply Permutation_refl.
  - eapply perm_trans; [apply perm_skip, IH|apply perm_swap].
Qed.

Lemma sortNewestFirst_perm (l : list Call.t) :
  Permutation (sortNewestFirst l) l.
Proof.
  induction l as [|c l IH]; simpl; [apply perm_nil|].
  eapply perm_trans; [apply insertNewest_perm|now apply perm_skip].
Qed.

Lemma insertNewest_sorted (c : Call.t) (l : list Call.t) :
  StronglySorted createdAfter l ->
  StronglySorted createdAfter (insertNewest c l).
Proof.
  induction 1 as [|x l Hsorted IH Hall]; simpl.
  - constructor; constructor.
  - destruct (Call.createdAt x <=? Call.createdAt c)%Z eqn:E.
    + apply Z.leb_le in E. constructor.
      * now constructor.
      * constructor; [exact E|].
        eapply Forall_impl; [|exact Hall].
        unfold createdAfter. intros a Ha. lia.
    + apply Z.leb_gt in E. constructor; [exact IH|].
      eapply Permutation_Forall.
      * apply Permutation_sym, insertNewest_perm.
      * constructor; [unfold createdAfter; lia|exact Hall].
Qed.

Lemma sortNewestFirst_sorted (l : list Call.t) :
  StronglySorted createdAfter (sortNewestFirst l).
Proof.
  induction l as [|c l IH]; simpl; [constructor|].
  now apply insertNewest_sorted.
Qed.

(** X12.  The call-history query of a user returns exactly the stored calls
    whose staff is that user, each as often as it is stored, newest first;
    a call the user only made as a client is not in it. *)
Theorem myCalls_newest_first (s : Server) (user : User.t) :
  Permutation (map fst (myCalls s user)) (filter (boundTo user) (calls s)) /\
  (forall c, In c (map fst (myCalls s user)) <->
             In c (calls s) /\ Call.staffId c = Some (User._id user)) /\
  StronglySorted createdAfter (map fst (myCalls s user)).
Proof.
  unfold myCalls. rewrite populate_fst.
  split; [apply sortNewestFirst_perm|]. split.
  - intros c.
    assert (Hb : boundTo user c = true <->
                 Call.staffId c = Some (User._id user)).
    { unfold boundTo. destruct (Call.staffId c) as [staff|].
      - rewrite String.eqb_eq. split; congruence.
      - split; discriminate. }
    split.
    + intros H. apply (Permutation_in _ (sortNewestFirst_perm _)) in H.
      apply filter_In in H. tauto.
    + intros [Hin Hst].
      apply (Permutation_in _ (Permutation_sym (sortNewestFirst_perm _))).
      apply filter_In. tauto.
  - apply sortNewestFirst_sorted.
Qed.

(** ** The token middleware *)

Lemma split_noSpace (str : string) :
  noSpace str -> splitOnSpace str = [str].
Proof.
  unfold noSpace. induction str as [|c rest IH]; simpl; [reflexivity|].
  intros H. apply andb_prop in H. destruct H as [Hc Hrest].
  apply negb_true_iff in Hc. rewrite Hc. now rewrite IH.
Qed.

Lemma split_word (word rest : string) :
  noSpace word ->
  splitOnSpace (word ++ String " " rest) = word :: splitOnSpace rest.
Proof.
  unfold noSpace. induction word as [|c word IH]; simpl; [reflexivity|].
  intros H. apply andb_prop in H. destruct H as [Hc Hword].
  apply negb_true_iff in Hc. rewrite Hc. now rewrite IH.
Qed.

Lemma tokenOf_word (word token : string) :
  noSpace word -> noSpace token -> token <> "" ->
  tokenOf (Some (word ++ String " " token)) = Some token.
Proof.
  intros Hw Ht Hne. unfold tokenOf.
  rewrite split_word, split_noSpace by assumption. cbn [nth_error].
  destruct token as [|c t]; [contradiction|].
  now destruct word.
Qed.

(** X13.  With MongoDB connected, a request the rate limiter lets through
    (one of the first 100 of its address in the window of 15 minutes) is
    served the waiting list when its Authorization header is one word, a
    space and a token that verifies to the id of a stored account: the word
    need not be Bearer and the role of the account is not looked at.  From
    the 101st request of the window on the same request is answered 429 by
    the limiter. *)
Theorem waiting_list_for_any_account (verify : string -> option string)
  (s : Server) (hits : nat) (word token userId : string) (oid : Id)
  (user : User.t) :
  readyState s = 1 ->
  noSpace word -> noSpace token -> token <> "" ->
  verify token = Some userId ->
  castObjectId userId = Some oid ->
  find (fun u => User._id u =? oid) (users s) = Some user ->
  getCallsWaiting hits verify s (Some (word ++ String " " token))
  = if (hits <=? 100)%nat then Json (listWaiting s) else TooManyRequests.
Proof.
  intros Hready Hw Ht Hne Hv Hcast Hfind.
  unfold getCallsWaiting, authenticateToken, limiter.
  rewrite (tokenOf_word word token Hw Ht Hne), Hv, Hcast, Hfind, Hready.
  rewrite Nat.leb_antisym. now destruct (100 <? hits)%nat.
Qed.

(** The visitor's account, role client, with the scheme word Basic: the
    100th request of the window is served, the 101st is not. *)
Lemma waiting_list_for_any_account_witness :
  getCallsWaiting 100
    (fun t => if t =? "vic-token" then Some (newObjectId 10) else None)
    ringing (Some ("Basic" ++ String " " "vic-token"))
  = Json (listWaiting ringing) /\
  getCallsWaiting 101
    (fun t => if t =? "vic-token" then Some (newObjectId 10) else None)
    ringing (Some ("Basic" ++ String " " "vic-token"))
  = TooManyRequests.
Proof.
  split.
  - apply (waiting_list_for_any_account
             (fun t => if t =? "vic-token" then Some (newObjectId 10)
                       else None)
             ringing 100 "Basic" "vic-token" (newObjectId 10) (newObjectId 10)
             (User.mk (newObjectId 10) "Vic" "vic@rexbot.test"
                (Some "$2a$random") "client" None false None));
      try (vm_compute; reflexivity).
    discriminate.
  - apply (waiting_list_for_any_account
             (fun t => if t =? "vic-token" then Some (newObjectId 10)
                       else None)
             ringing 101 "Basic" "vic-token" (newObjectId 10) (newObjectId 10)
             (User.mk (newObjectId 10) "Vic" "vic@rexbot.test"
                (Some "$2a$random") "client" None false None));
      try (vm_compute; reflexivity).
    discriminate.
Defined.

(** X14.  A request the rate limiter lets through is turned away with 401
    before the token is verified when it has no Authorization header, an
    empty one, one without a space, or one whose second piece is empty (a
    word followed by a space and nothing, or by two spaces); from the 101st
    request of its address in the window on it is answered 429 by the
    limiter instead. *)
Theorem no_token_no_access (verify : string -> option string) (s : Server)
  (hits : nat) (authHeader : option string) :
  authHeader = None \/
  (exists word, authHeader = Some word /\ noSpace word) \/
  (exists word rest, authHeader = Some (word ++ String " " rest) /\
                     noSpace word /\
                     (rest = "" \/ exists more, rest = String " " more)) ->
  getCallsWaiting hits verify s authHeader
  = (if (hits <=? 100)%nat then Failure 401 "Access token required"
     else TooManyRequests) /\
  getMyCalls hits verify s authHeader
  = (if (hits <=? 100)%nat then Failure 401 "Access token required"
     else TooManyRequests).
Proof.
  intros H.
  assert (Htok : tokenOf authHeader = None).
  { destruct H as [->|[(word & -> & Hw)|(word & rest & -> & Hw & Hrest)]].
    - reflexivity.
    - unfold tokenOf. rewrite split_noSpace by exact Hw.
      now destruct word.
    - unfold tokenOf. rewrite split_word by exact Hw.
      destruct Hrest as [->|(more & ->)]; now destruct word. }
  unfold getCallsWaiting, getMyCalls, authenticateToken, limiter.
  rewrite Htok, Nat.leb_antisym. now destruct (100 <? hits)%nat.
Qed.

Lemma no_token_no_access_witness :
  (getCallsWaiting 1 (fun t => Some t) ringing
     (Some ("Bearer" ++ String " " ""))
   = Failure 401 "Access token required" /\
   getMyCalls 1 (fun t => Some t) ringing (Some ("Bearer" ++ String " " ""))
   = Failure 401 "Access token required") /\
  (getCallsWaiting 101 (fun t => Some t) ringing None = TooManyRequests /\
   getMyCalls 101 (fun t => Some t) ringing None = TooManyRequests).
Proof.
  split.
  - apply (no_token_no_access (fun t => Some t) ringing 1
             (Some ("Bearer" ++ String " " ""))).
    right. right. exists "Bearer", "". split; [reflexivity|].
    split; [reflexivity|]. now left.
  - apply (no_token_no_access (fun t => Some t) ringing 101 None).
    now left.
Defined.

(** ** The receptionist server: the window of remembered messages *)

Lemma lastN_short {A : Type} (n : nat) (l : list A) :
  (List.length l <= n)%nat -> lastN n l = l.
Proof.
  intros H. unfold lastN.
  replace (List.length l - n)%nat with 0%nat by lia. reflexivity.
Qed.

Lemma lastN_length {A : Type} (n : nat) (l : list A) :
  List.length (lastN n l) = Nat.min n (List.length l).
Proof. unfold lastN. rewrite length_skipn. lia. Qed.

Lemma lastN_app {A : Type} (n : nat) (l x : list A) :
  lastN n (lastN n l ++ x) = lastN n (l ++ x).
Proof.
  destruct (Nat.le_gt_cases (List.length l) n) as [Hle|Hgt].
  - now rewrite (lastN_short n l Hle).
  - unfold lastN at 1 3.
    rewrite !length_app, lastN_length.
    replace (Nat.min n (List.length l)) with n by lia.
    unfold lastN.
    rewrite (skipn_app (List.length l + List.length x - n)).
    replace (List.length l + List.length x - n - List.length l)%nat
      with (List.length x - n)%nat by lia.
    rewrite (skipn_app (n + List.length x - n)).
    rewrite length_skipn.
    replace (n + List.length x - n - (List.length l - (List.length l - n)))%nat
      with (List.length x - n)%nat by lia.
    f_equal. rewrite skipn_skipn. f_equal. lia.
Qed.

Lemma remember_window (conversation : list Turn) (message response : string) :
  (List.length conversation <= 10)%nat ->
  Nat.even (List.length conversation) = true ->
  remember conversation message response
  = lastN 10 (conversation
                ++ [mkTurn RUser message; mkTurn RAssistant response]).
Proof.
  intros Hle Heven. unfold remember, lastN.
  rewrite length_app. cbn [List.length].
  destruct (Nat.ltb_spec 10 (List.length conversation + 2)) as [Hlt|Hge].
  - assert (List.length conversation = 10 \/ List.length conversation = 9)%nat
      as [H|H] by lia.
    + now rewrite H.
    + rewrite H in Heven. discriminate Heven.
  - replace (List.length conversation + 2 - 10)%nat with 0%nat by lia.
    reflexivity.
Qed.

Lemma historyOf_set (conversations : JsMap.t (list Turn)) (k k' : string)
  (c : list Turn) :
  historyOf (JsMap.set k c conversations) k'
  = if k' =? k then c else historyOf conversations k'.
Proof.
  unfold historyOf. destruct (String.eqb_spec k' k) as [->|Hne].
  - now rewrite get_set_same.
  - now rewrite get_set_other.
Qed.

Lemma even_lastN_10 (l : list Turn) :
  Nat.even (List.length l) = true ->
  Nat.even (List.length (lastN 10 l)) = true.
Proof.
  intros H. rewrite lastN_length.
  destruct (Nat.le_gt_cases 10 (List.length l)).
  - now replace (Nat.min 10 (List.length l)) with 10%nat by lia.
  - now replace (Nat.min 10 (List.length l)) with (List.length l) by lia.
Qed.

Lemma postChat_step (openai : list Turn -> option string)
  (conversations : JsMap.t (list Turn)) (message cid : string) :
  match requiredString (Some message), requiredString (Some cid),
        openai (requestMessages (historyOf conversations cid) message) with
  | Some _, Some _, Some response =>
      fst (postChat openai conversations (Some message) (Some cid))
      = JsMap.set cid
          (remember (historyOf conversations cid) message response)
          conversations
  | _, _, _ =>
      fst (postChat openai conversations (Some message) (Some cid))
      = conversations
  end.
Proof.
  unfold postChat, generateReply, historyOf.
  destruct (requiredString (Some message)) as [m|] eqn:Hm;
    [|reflexivity].
  destruct (requiredString (Some cid)) as [c|] eqn:Hc; [|reflexivity].
  assert (m = message) as -> by (destruct message; cbn in Hm; congruence).
  assert (c = cid) as -> by (destruct cid; cbn in Hc; congruence).
  now destruct (openai _).
Qed.

Lemma chats_window (openai : list Turn -> option string)
  (requests : list (string * string)) (conversationId : string) :
  forall (conversations : JsMap.t (list Turn)) (said : list Turn),
    historyOf conversations conversationId = lastN 10 said ->
    Nat.even (List.length said) = true ->
    historyOf (chats openai conversations requests) conversationId
    = lastN 10 (said ++ transcript openai conversations requests
                          conversationId).
Proof.
  induction requests as [|[message cid] rest IH];
    intros conversations said Hh Heven; cbn [chats transcript].
  - now rewrite app_nil_r.
  - pose proof (postChat_step openai conversations message cid) as Hstep.
    destruct (requiredString (Some message));
      [|rewrite Hstep; now apply IH].
    destruct (requiredString (Some cid));
      [|rewrite Hstep; now apply IH].
    destruct (openai _) as [response|];
      [|rewrite Hstep; now apply IH].
    rewrite Hstep.
    destruct (String.eqb_spec cid conversationId) as [->|Hne].
    + rewrite app_assoc. apply IH.
      * rewrite historyOf_set, String.eqb_refl, Hh.
        rewrite remember_window.
        -- apply lastN_app.
        -- rewrite lastN_length. lia.
        -- now apply even_lastN_10.
      * rewrite length_app. cbn [List.length].
        replace (List.length said + 2)%nat
          with (S (S (List.length said))) by lia.
        exact Heven.
    + cbn [app]. apply IH; [|exact Heven].
      rewrite historyOf_set.
      destruct (String.eqb_spec conversationId cid); [congruence|exact Hh].
Qed.

(** X15.  The receptionist server remembers the last ten messages of a
    conversation: starting with no history for a conversation id, after any
    sequence of chat requests the stored history of that id is the last ten
    messages of everything said in it (each answered request contributing
    the message and the answer), so the model is shown the last five
    exchanges at most. *)
Theorem history_is_last_ten (openai : list Turn -> option string)
  (conversations : JsMap.t (list Turn)) (requests : list (string * string))
  (conversationId : string) :
  JsMap.get conversationId conversations = None ->
  historyOf (chats openai conversations requests) conversationId
  = lastN 10 (transcript openai conversations requests conversationId) /\
  (List.length
     (historyOf (chats openai conversations requests) conversationId)
   <= 10)%nat.
Proof.
  intros Hnone.
  assert (H : historyOf (chats openai conversations requests) conversationId
              = lastN 10 ([] ++ transcript openai conversations requests
                                  conversationId)).
  { apply chats_window; [|reflexivity].
    unfold historyOf. now rewrite Hnone. }
  cbn [app] in H. split; [exact H|].
  rewrite H, lastN_length. lia.
Qed.

Lemma history_is_last_ten_witness :
  historyOf (chats echo [] sevenChats) "c1"
  = lastN 10 (transcript echo [] sevenChats "c1") /\
  (List.length (historyOf (chats echo [] sevenChats) "c1") <= 10)%nat.
Proof.
  apply (history_is_last_ten echo [] sevenChats "c1"). reflexivity.
Defined.

(** Six exchanges were made in the conversation; the first is forgotten. *)
Example six_exchanges_five_remembered :
  List.length (transcript echo [] sevenChats "c1") = 12%nat /\
  map turnContent (historyOf (chats echo [] sevenChats) "c1")
  = ["two"; "You said: two"; "three"; "You said: three"; "four";
     "You said: four"; "five"; "You said: five"; "six"; "You said: six"].
Proof. vm_compute. split; reflexivity. Qed.

(** X16.  A chat request without a message or without a conversation id
    (absent or empty) is answered 400 with 'Message and conversationId are
    required', whatever the completion call would give; a request that has
    both and whose completion call fails is answered 200 with the apology.
    In both cases the stored histories are exactly as before. *)
Theorem chat_failures_store_nothing (openai : list Turn -> option string)
  (conversations : JsMap.t (list Turn))
  (message conversationId : option string) :
  (requiredString message = None \/ requiredString conversationId = None ->
   postChat openai conversations message conversationId
   = (conversations, (400, "Message and conversationId are required"))) /\
  (forall m cid,
      requiredString message = Some m ->
      requiredString conversationId = Some cid ->
      openai (requestMessages (historyOf conversations cid) m) = None ->
      postChat openai conversations message conversationId
      = (conversations, (200, apology))).
Proof.
  unfold postChat, generateReply, historyOf. split.
  - intros [H|H]; rewrite H; [reflexivity|].
    now destruct (requiredString message).
  - intros m cid Hm Hc H. now rewrite Hm, Hc, H.
Qed.

(** An empty message to a model that answers, and a full request to a model
    that fails. *)
Lemma chat_failures_store_nothing_witness :
  postChat echo (chats echo [] sevenChats) (Some "") (Some "c1")
  = (chats echo [] sevenChats,
     (400, "Message and conversationId are required")) /\
  postChat (fun _ => None) (chats echo [] sevenChats) (Some "seven")
    (Some "c1")
  = (chats echo [] sevenChats, (200, apology)).
Proof.
  split.
  - apply (proj1 (chat_failures_store_nothing echo
                    (chats echo [] sevenChats) (Some "") (Some "c1"))).
    left. reflexivity.
  - apply (proj2 (chat_failures_store_nothing (fun _ => None)
                    (chats echo [] sevenChats) (Some "seven") (Some "c1"))
             "seven" "c1"); reflexivity.
Defined.

(** X17.  A chat request only ever writes the history of the conversation
    it names: the stored history of every other conversation id is as
    before. *)
Theorem chat_keeps_other_histories (openai : list Turn -> option string)
  (conversations : JsMap.t (list Turn))
  (message conversationId : option string) (other : string) :
  conversationId <> Some other ->
  JsMap.get other
    (fst (postChat openai conversations message conversationId))
  = JsMap.get other conversations.
Proof.
  intros Hne. unfold postChat, generateReply.
  destruct (requiredString message) as [m|]; [|reflexivity].
  destruct (requiredString conversationId) as [cid|] eqn:Hc; [|reflexivity].
  destruct (openai _); cbn [fst]; [|reflexivity].
  apply get_set_other. intros ->. apply Hne.
  destruct conversationId as [[|a c]|]; cbn in Hc; congruence.
Qed.

Lemma chat_keeps_other_histories_witness :
  JsMap.get "c2"
    (fst (postChat echo (chats echo [] sevenChats) (Some "seven")
            (Some "c1")))
  = JsMap.get "c2" (chats echo [] sevenChats).
Proof.
  apply (chat_keeps_other_histories echo (chats echo [] sevenChats)
           (Some "seven") (Some "c1") "c2").
  discriminate.
Defined.

(** ** chat-message *)

Lemma find_pushMessage_same (k : string) (m : Message)
  (cvs : list Conversation.t) (cv : Conversation.t) :
  findConversation k cvs = Some cv ->
  findConversation k (pushMessage k m cvs)
  = Some (Conversation.mk (Conversation.userId cv) (Conversation.sessionId cv)
            (Conversation.messages cv ++ [m])).
Proof.
  unfold findConversation.
  induction cvs as [|a cvs IH]; simpl; [discriminate|].
  destruct (Conversation.sessionId a =? k) eqn:E; simpl; rewrite E.
  - intros H. now injection H as ->.
  - exact IH.
Qed.

Lemma find_pushMessage_other (k k' : string) (m : Message)
  (cvs : list Conversation.t) :
  k' <> k ->
  findConversation k' (pushMessage k m cvs) = findConversation k' cvs.
Proof.
  intros Hne. unfold findConversation.
  induction cvs as [|a cvs IH]; simpl; [reflexivity|].
  destruct (Conversation.sessionId a =? k) eqn:E; simpl.
  - apply String.eqb_eq in E.
    destruct (Conversation.sessionId a =? k') eqn:E'; [|reflexivity].
    apply String.eqb_eq in E'. congruence.
  - now rewrite IH.
Qed.

Lemma find_hasConversation (s : Server) (k : string) (cv : Conversation.t) :
  findConversation k (conversations s) = Some cv ->
  hasConversation s k = true.
Proof.
  unfold findConversation, hasConversation. intros H.
  apply find_some in H. apply existsb_exists. now exists cv.
Qed.

(** X18.  A chat-message of a registered socket that names a stored
    conversation, its own or another socket's.  When the message and the
    reply generated for it are both non-empty, the message and the reply are
    appended to that conversation, in this order, and the socket is answered
    ai-response with the reply.  When the message is empty nothing is
    stored, and when the message is non-empty and the reply is empty only
    the message is appended; in both cases the socket is answered the error
    event 'Failed to process message' and no ai-response.  In every case
    every other conversation, the calls, the accounts and the two maps are
    as before. *)
Theorem chat_appends_exchange (s : Server) (sid : SocketId) (env : ChatEnv)
  (sessionId message : string) (u : User.t) (cv : Conversation.t) :
  JsMap.get sid (connectedUsers s) = Some u ->
  findConversation sessionId (conversations s) = Some cv ->
  let reply :=
    respond
      (set_conversations
         (pushMessage sessionId (mkMessage SUser message MText)
            (conversations s)) s)
      env message sessionId in
  let s' := fst (on_chat_message s sid env sessionId message) in
  let outs := snd (on_chat_message s sid env sessionId message) in
  let stored (added : list Message) :=
    Some (Conversation.mk (Conversation.userId cv)
            (Conversation.sessionId cv)
            (Conversation.messages cv ++ added)) in
  (message = "" ->
   s' = s /\ outs = [error_reply "Failed to process message"]) /\
  (message <> "" -> reply = "" ->
   outs = [error_reply "Failed to process message"] /\
   findConversation sessionId (conversations s')
   = stored [mkMessage SUser message MText]) /\
  (message <> "" -> reply <> "" ->
   outs = [ai_response reply] /\
   findConversation sessionId (conversations s')
   = stored [mkMessage SUser message MText;
             mkMessage SRexbot reply MText]) /\
  (forall other, other <> sessionId ->
                 findConversation other (conversations s')
                 = findConversation other (conversations s)) /\
  calls s' = calls s /\ users s' = users s /\
  connectedUsers s' = connectedUsers s /\ waitingCalls s' = waitingCalls s.
Proof.
  intros Hu Hfind reply s' outs stored.
  unfold s', outs, on_chat_message.
  rewrite Hu, (find_hasConversation s sessionId cv Hfind).
  destruct message as [|c0 message].
  - cbn [fst snd]. split; [intros _; split; reflexivity|].
    split; [intros H; now destruct H|].
    split; [intros H; now destruct H|].
    repeat split.
  - fold reply. split; [discriminate|].
    destruct reply as [|r0 reply0] eqn:Hr;
      cbn [fst snd conversations set_conversations].
    + split.
      * intros _ _. split; [reflexivity|].
        unfold stored. apply (find_pushMessage_same sessionId _ _ _ Hfind).
      * split; [intros _ H; now destruct H|].
        split; [|repeat split].
        intros other Hne. now rewrite find_pushMessage_other.
    + split; [intros _ H; discriminate H|].
      split.
      * intros _ _. split; [reflexivity|]. unfold stored.
        rewrite (find_pushMessage_same sessionId _ _ _
                   (find_pushMessage_same sessionId _ _ _ Hfind)).
        cbn. now rewrite <- app_assoc.
      * split; [|repeat split].
        intros other Hne. now rewrite !find_pushMessage_other.
Qed.

(** Alice's socket writes into the conversation of the visitor; an empty
    message of hers is refused and stores nothing. *)
Lemma chat_appends_exchange_witness :
  (let reply :=
     respond
       (set_conversations
          (pushMessage "V" (mkMessage SUser "hello" MText)
             (conversations ringing)) ringing)
       noKey "hello" "V" in
   let s' := fst (on_chat_message ringing "S1" noKey "V" "hello") in
   snd (on_chat_message ringing "S1" noKey "V" "hello")
   = [ai_response reply] /\
   findConversation "V" (conversations s')
   = Some (Conversation.mk (Conversation.userId ringingConversation)
             (Conversation.sessionId ringingConversation)
             (Conversation.messages ringingConversation
                ++ [mkMessage SUser "hello" MText;
                    mkMessage SRexbot reply MText]))) /\
  on_chat_message ringing "S1" noKey "V" ""
  = (ringing, [error_reply "Failed to process message"]).
Proof.
  split.
  - refine (proj1 (proj2 (proj2
              (chat_appends_exchange ringing "S1" noKey "V" "hello"
                 (loggedIn 2000 alice) ringingConversation _ _))) _ _).
    + vm_compute. reflexivity.
    + vm_compute. reflexivity.
    + discriminate.
    + vm_compute. discriminate.
  - refine (_ (proj1 (chat_appends_exchange ringing "S1" noKey "V" ""
                        (loggedIn 2000 alice) ringingConversation _ _)
                 eq_refl)).
    + intros [H1 H2].
      now rewrite (surjective_pairing (on_chat_message _ _ _ _ _)), H1, H2.
    + vm_compute. reflexivity.
    + vm_compute. reflexivity.
Defined.

(** ** The prompt and the canned replies *)

Lemma append_assoc (a b c : string) : (a ++ b) ++ c = a ++ (b ++ c).
Proof. induction a as [|x a IH]; simpl; [reflexivity|now rewrite IH]. Qed.

Lemma lastN_snoc {A : Type} (n : nat) (l : list A) (x : A) :
  lastN (S n) (l ++ [x]) = (lastN n l ++ [x])%list.
Proof.
  unfold lastN. rewrite length_app. cbn [List.length].
  replace (List.length l + 1 - S n)%nat with (List.length l - n)%nat by lia.
  rewrite skipn_app.
  replace (List.length l - n - List.length l)%nat with 0%nat by lia.
  reflexivity.
Qed.

Lemma join_snoc (sep : string) (lines : list string) (line : string) :
  exists before, join sep (lines ++ [line]) = before ++ line.
Proof.
  induction lines as [|a lines IH]; [now exists ""|].
  destruct IH as [before IH]. cbn [app].
  destruct lines as [|b lines].
  - exists (a ++ sep). cbn. now rewrite append_assoc.
  - exists (a ++ sep ++ before).
    change (join sep (a :: (b :: lines) ++ [line]))
      with (a ++ sep ++ join sep ((b :: lines) ++ [line])).
    rewrite IH. now rewrite !append_assoc.
Qed.

Lemma promptText_ends (history : list Message) (message : string) :
  exists before,
    promptText (history ++ [mkMessage SUser message MText]) message
    = before ++ "user: " ++ message ++ newline ++ newline ++ "User: "
        ++ message.
Proof.
  unfold promptText. rewrite map_app. cbn [map sender content senderName].
  destruct (join_snoc newline
              (map (fun msg => senderName (sender msg) ++ ": " ++ content msg)
                 history)
              ("user" ++ ": " ++ message)) as [before ->].
  exists (REXBOT_PROMPT ++ newline ++ newline ++ "Conversation history:"
            ++ newline ++ before).
  rewrite !append_assoc. reflexivity.
Qed.

(** X19.  With a Gemini key configured, the prompt built for a chat-message
    on a stored conversation carries the message twice: the handler saves
    the message before the reply is generated, so it is the last line of the
    conversation history, and it follows again as the User line.  The reply
    the socket receives is what the model makes of that prompt. *)
Theorem prompt_repeats_message (s : Server) (sid : SocketId) (env : ChatEnv)
  (sessionId message key : string) (u : User.t) (cv : Conversation.t) :
  JsMap.get sid (connectedUsers s) = Some u ->
  findConversation sessionId (conversations s) = Some cv ->
  message <> "" ->
  apiKey env = Some key ->
  key <> "" -> key <> "your_gemini_api_key_here" ->
  exists before,
    snd (on_chat_message s sid env sessionId message)
    = answer (replyTo env
                (before ++ "user: " ++ message ++ newline ++ newline
                   ++ "User: " ++ message)).
Proof.
  intros Hu Hfind Hm Hkey Hk1 Hk2.
  destruct (promptText_ends (lastN 9 (Conversation.messages cv)) message)
    as [before Hbefore].
  exists before. rewrite <- Hbefore.
  unfold on_chat_message.
  rewrite Hu, (find_hasConversation s sessionId cv Hfind).
  destruct message as [|c0 message]; [contradiction|].
  unfold respond. cbn [conversations set_conversations].
  fold (findConversation sessionId
          (pushMessage sessionId
             (mkMessage SUser (String c0 message) MText) (conversations s))).
  rewrite (find_pushMessage_same sessionId _ _ _ Hfind).
  cbn [Conversation.messages]. rewrite lastN_snoc, Hkey.
  apply String.eqb_neq in Hk1, Hk2. rewrite Hk1, Hk2. cbn [orb].
  fold (replyTo env
          (promptText
             (lastN 9 (Conversation.messages cv)
                ++ [mkMessage SUser (String c0 message) MText])
             (String c0 message))).
  unfold answer. now destruct (replyTo env _).
Qed.

Lemma prompt_repeats_message_witness :
  exists before,
    snd (on_chat_message ringing "V" parrot "V" "Where is the office?")
    = answer (replyTo parrot
                (before ++ "user: " ++ "Where is the office?" ++ newline
                   ++ newline ++ "User: " ++ "Where is the office?")).
Proof.
  apply (prompt_repeats_message ringing "V" parrot "V" "Where is the office?"
           "AIza-test"
           (User.mk (newObjectId 10) "Vic" "vic@rexbot.test"
              (Some "$2a$random") "client" None false None)
           ringingConversation);
    try (vm_compute; reflexivity); discriminate.
Defined.

(** X20.  Without a usable Gemini key (none, the empty string or the
    placeholder of the example file) the model is not asked.  With MongoDB
    connected the reply is one of the five canned greetings, whatever the
    message and the conversation; without it the lookup of the conversation
    throws before the key is read and the reply is the apology. *)
Theorem no_key_canned_reply (s : Server) (env : ChatEnv)
  (message conversationId : string) :
  apiKey env = None \/ apiKey env = Some "" \/
  apiKey env = Some "your_gemini_api_key_here" ->
  (readyState s = 1 ->
   In (generateResponse s env message conversationId) fallbackResponses) /\
  (readyState s <> 1 ->
   generateResponse s env message conversationId = apology) /\
  forall model,
    generateResponse s (mkChatEnv (apiKey env) (dice env) model) message
      conversationId
    = generateResponse s env message conversationId.
Proof.
  intros Hkey.
  assert (Hpick : forall e, In (pick e fallbackResponses) fallbackResponses).
  { intros e. unfold pick. apply nth_In. cbn [List.length fallbackResponses].
    apply Nat.mod_upper_bound. discriminate. }
  unfold generateResponse. split; [|split].
  - intros ->. cbn [Z.eqb Pos.eqb negb]. unfold respond.
    destruct Hkey as [-> | [-> | ->]];
      cbn [String.eqb Ascii.eqb Bool.eqb orb]; apply Hpick.
  - intros Hready. apply Z.eqb_neq in Hready. now rewrite Hready.
  - intros model. destruct (readyState s =? 1)%Z; cbn [negb]; [|reflexivity].
    unfold respond. cbn [apiKey].
    destruct Hkey as [-> | [-> | ->]]; reflexivity.
Qed.

Lemma no_key_canned_reply_witness :
  In (generateResponse ringing noKey "hello" "V") fallbackResponses /\
  generateResponse demoOffice noKey "hello" "V" = apology.
Proof.
  split.
  - apply (proj1 (no_key_canned_reply ringing noKey "hello" "V"
                    (or_introl eq_refl))).
    reflexivity.
  - apply (proj1 (proj2 (no_key_canned_reply demoOffice noKey "hello" "V"
                           (or_introl eq_refl)))).
    discriminate.
Defined.

(** ** Accounts created for visitors *)

(** X21.  With MongoDB connected, a start-conversation whose email has no
    account creates one with role client, and that account does not open
    staff-login: whatever password is sent and whatever bcrypt answers, a
    staff-login with that email is refused and changes nothing. *)
Theorem visitor_account_cannot_login (s : Server) (sid sid' : SocketId)
  (env env' : Env) (name email password : string) (purpose : option string) :
  readyState s = 1 ->
  find (fun x => User.email x =? email) (users s) = None ->
  let s1 := fst (handle s sid env (start_conversation name email purpose)) in
  (exists u, users s1 = (users s ++ [u])%list /\ User.role u = "client" /\
             User.email u = email /\ User.name u = name) /\
  handle s1 sid' env' (staff_login email password)
  = (s1, [(ToSocket sid', login_error "Invalid credentials")]).
Proof.
  intros Hready Hfind s1.
  assert (Husers : users s1
                   = (users s
                        ++ [User.mk (newObjectId (nextOid s)) name email
                              (Some (bcryptHash env)) "client" None false
                              None])%list).
  { unfold s1. cbn [handle]. unfold on_start_conversation.
    rewrite Hready. cbn [Z.eqb Pos.eqb]. unfold start_mongo. rewrite Hfind.
    match goal with
    | |- context [existsb ?p ?l] => destruct (existsb p l)
    end; [reflexivity|].
    destruct (requiredString purpose); reflexivity. }
  split.
  - eexists. split; [exact Husers|]. repeat split.
  - assert (Hready1 : readyState s1 = 1).
    { unfold s1. now rewrite handle_readyState. }
    cbn [handle]. unfold on_staff_login.
    rewrite Hready1. cbn [Z.eqb Pos.eqb negb].
    destruct (find _ (users s1)) as [user|] eqn:Hlogin; [|reflexivity].
    exfalso. apply find_some in Hlogin. destruct Hlogin as [Hin Hp].
    apply andb_prop in Hp. destruct Hp as [He Hr].
    rewrite Husers in Hin. apply in_app_or in Hin.
    destruct Hin as [Hin|[<-|[]]].
    + pose proof (find_none _ _ Hfind user Hin) as Hx. cbn in Hx.
      rewrite Hx in He. discriminate He.
    + cbn in Hr. discriminate Hr.
Qed.

Lemma visitor_account_cannot_login_witness :
  let s0 := fst (run office (firstn 6 morning)) in
  let s1 := fst (handle s0 "V" (at_ 3000)
                   (start_conversation "Vic" "vic@rexbot.test"
                      (Some "Support"))) in
  (exists u, users s1 = (users s0 ++ [u])%list /\ User.role u = "client" /\
             User.email u = "vic@rexbot.test" /\ User.name u = "Vic") /\
  handle s1 "V" (at_ 3500) (staff_login "vic@rexbot.test" "guess")
  = (s1, [(ToSocket "V", login_error "Invalid credentials")]).
Proof.
  apply (visitor_account_cannot_login (fst (run office (firstn 6 morning)))
           "V" "V" (at_ 3000) (at_ 3500) "Vic" "vic@rexbot.test" "guess"
           (Some "Support")); vm_compute; reflexivity.
Defined.

(** ** Calls of demo mode *)




(** ** From the broadcast to the accepted call *)

Lemma hexChar_canonical (m : N) :
  (m < 16)%N ->
  isHexDigit (hexChar m) = true /\ toLowerHex (hexChar m) = hexChar m.
Proof.
  intros H.
  assert (m = 0 \/ m = 1 \/ m = 2 \/ m = 3 \/ m = 4 \/ m = 5 \/ m = 6 \/
          m = 7 \/ m = 8 \/ m = 9 \/ m = 10 \/ m = 11 \/ m = 12 \/
          m = 13 \/ m = 14 \/ m = 15)%N as Hm by lia.
  repeat (destruct Hm as [->|Hm]; [split; reflexivity|]).
  subst m. split; reflexivity.
Qed.

Lemma hexDigits_canonical (k : nat) :
  forall (n : N) (acc : string),
    string_forallb isHexDigit acc = true ->
    string_map toLowerHex acc = acc ->
    string_forallb isHexDigit (hexDigits k n acc) = true /\
    string_map toLowerHex (hexDigits k n acc) = hexDigits k n acc /\
    String.length (hexDigits k n acc) = (k + String.length acc)%nat.
Proof.
  induction k as [|k IH]; intros n acc Hhex Hlow; cbn [hexDigits].
  - auto.
  - destruct (hexChar_canonical (n mod 16)%N) as [H1 H2];
      [apply N.mod_lt; discriminate|].
    destruct (IH (n / 16)%N (String (hexChar (n mod 16)%N) acc))
      as (A & B & C).
    + cbn. now rewrite H1, Hhex.
    + cbn. now rewrite H2, Hlow.
    + repeat split; try assumption. rewrite C. cbn. lia.
Qed.

(** The ids the server hands out are in the form the cast produces. *)
Lemma newObjectId_cast (n : N) :
  castObjectId (newObjectId n) = Some (newObjectId n).
Proof.
  unfold castObjectId, newObjectId.
  destruct (hexDigits_canonical 24 n "" eq_refl eq_refl) as (A & B & C).
  rewrite A, B, C. reflexivity.
Qed.

Lemma start_mongo_success (s : Server) (sid : SocketId) (env : Env)
  (name email : string) (purpose : option string) (callId : Id) :
  readyState s = 1 ->
  In (ToSocket sid, conversation_started sid callId name purpose)
     (snd (handle s sid env (start_conversation name email purpose))) ->
  let s1 := fst (handle s sid env (start_conversation name email purpose)) in
  exists call user,
    calls s1 = (calls s ++ [call])%list /\
    Call._id call = callId /\ Call.status call = Waiting /\
    waitingCalls s1 = JsMap.set sid call (waitingCalls s) /\
    connectedUsers s1 = JsMap.set sid user (connectedUsers s) /\
    Call.clientId call = User._id user /\
    castObjectId callId = Some callId.
Proof.
  intros Hready. cbn [handle]. unfold on_start_conversation.
  rewrite Hready. cbn [Z.eqb Pos.eqb]. unfold start_mongo.
  destruct (find _ (users s)) as [u|];
    match goal with
    | |- context [existsb ?p ?l] => destruct (existsb p l)
    end; cbn -[newObjectId];
    try (intros [H|[]]; discriminate H);
    (destruct (requiredString purpose); cbn -[newObjectId];
     [|intros [H|[]]; discriminate H]);
    (intros [H|[H|[]]]; [discriminate H|]);
    injection H as <-;
    eexists; eexists; repeat (split; [reflexivity|]);
    apply newObjectId_cast.
Qed.

Lemma findById_app_new (oid : Id) (cs : list Call.t) (c : Call.t) :
  findById oid cs = None -> Call._id c = oid ->
  findById oid (cs ++ [c]) = Some c.
Proof.
  unfold findById. intros Hnone Hid.
  induction cs as [|a cs IH]; simpl in *.
  - apply String.eqb_eq in Hid. now rewrite Hid.
  - destruct (Call._id a =? oid); [discriminate|now apply IH].
Qed.

Lemma findKey_set_new {V : Type} (p : V -> bool) (k : string) (v : V)
  (m : JsMap.t V) :
  (forall k' v', In (k', v') m -> p v' = false) ->
  p v = true ->
  JsMap.findKey p (JsMap.set k v m) = Some k.
Proof.
  intros Hnone Hv. induction m as [|[k0 v0] m IH]; simpl.
  - now rewrite Hv.
  - destruct (k =? k0) eqn:E; simpl.
    + now rewrite Hv.
    + rewrite (Hnone k0 v0) by now left.
      apply IH. intros k' v' Hin. apply (Hnone k' v'). now right.
Qed.

(** X23.  The id broadcast in new-call-request is the one accept-call
    needs.  With MongoDB connected, when a start-conversation has succeeded
    for a call id that no earlier call or waiting entry bears, the
    accept-call of another, registered staff socket that sends this id back
    succeeds: the visitor's socket is sent call-accepted with the name and
    department of the staff member, the staff socket call-started with the
    id of the visitor's account, the stored call is in progress and bound
    to the staff member, and the visitor's waiting entry is gone. *)
Theorem broadcast_id_is_accepted (s : Server) (visitor staffSocket : SocketId)
  (env env' : Env) (name email : string) (purpose : option string)
  (callId staff : Id) (su : User.t) :
  readyState s = 1 ->
  In (ToSocket visitor, conversation_started visitor callId name purpose)
     (snd (handle s visitor env (start_conversation name email purpose))) ->
  findById callId (calls s) = None ->
  detached callId s ->
  staffSocket <> visitor ->
  JsMap.get staffSocket (connectedUsers s) = Some su ->
  User.role su = "staff" ->
  castObjectId (User._id su) = Some staff ->
  let s1 := fst (handle s visitor env
                   (start_conversation name email purpose)) in
  let r := handle s1 staffSocket env' (accept_call callId) in
  exists call,
    findById callId (calls s1) = Some call /\
    snd r = [(ToRoom visitor,
              call_accepted (User.name su) (User.department su));
             (ToSocket staffSocket,
              call_started callId (Call.clientId call))] /\
    findById callId (calls (fst r))
    = Some (acceptedBy staff (now env') call) /\
    JsMap.get visitor (waitingCalls (fst r)) = None.
Proof.
  intros Hready Hok Hnew Hdet Hne Hsu Hrole Hstaff s1 r.
  destruct (start_mongo_success s visitor env name email purpose callId
              Hready Hok)
    as (call & user & Hcalls & Hid & Hst & Hwait & Hconn & _ & Hcast).
  fold s1 in Hcalls, Hwait, Hconn.
  assert (Hfind : findById callId (calls s1) = Some call)
    by (rewrite Hcalls; now apply findById_app_new).
  exists call. split; [exact Hfind|].
  unfold r. cbn [handle]. unfold on_accept_call, accept_fetch.
  rewrite Hconn, (get_set_other visitor staffSocket user _ Hne), Hsu, Hrole.
  cbn [String.eqb Ascii.eqb Bool.eqb negb]. rewrite Hcast, Hfind.
  unfold accept_commit. rewrite Hst, Hstaff. cbn [isWaiting negb].
  cbn [waitingCalls set_calls]. rewrite Hwait.
  rewrite (findKey_set_new (fun c => Call._id c =? callId) visitor call).
  - cbn [fst snd calls set_waitingCalls set_calls waitingCalls].
    split; [reflexivity|]. split.
    + rewrite Hid. apply findById_updateCall_same; auto using acceptedBy_id.
    + apply get_delete_same.
  - intros k' v' Hin. apply String.eqb_neq. now apply (Hdet k' v').
  - apply String.eqb_eq. exact Hid.
Qed.

Lemma broadcast_id_is_accepted_witness :
  let s0 := fst (run office (firstn 6 morning)) in
  let s1 := fst (handle s0 "V" (at_ 3000)
                   (start_conversation "Vic" "vic@rexbot.test"
                      (Some "Support"))) in
  let r := handle s1 "S2" (at_ 4000) (accept_call firstCall) in
  exists call,
    findById firstCall (calls s1) = Some call /\
    snd r = [(ToRoom "V",
              call_accepted (User.name (loggedIn 2001 bob))
                (User.department (loggedIn 2001 bob)));
             (ToSocket "S2", call_started firstCall (Call.clientId call))] /\
    findById firstCall (calls (fst r))
    = Some (acceptedBy (newObjectId 2) (now (at_ 4000)) call) /\
    JsMap.get "V" (waitingCalls (fst r)) = None.
Proof.
  apply (broadcast_id_is_accepted (fst (run office (firstn 6 morning)))
           "V" "S2" (at_ 3000) (at_ 4000) "Vic" "vic@rexbot.test"
           (Some "Support") firstCall (newObjectId 2) (loggedIn 2001 bob)).
  - vm_compute. reflexivity.
  - vm_compute. right. left. reflexivity.
  - vm_compute. reflexivity.
  - intros k c Hin. vm_compute in Hin. destruct Hin.
  - discriminate.
  - vm_compute. reflexivity.
  - reflexivity.
  - vm_compute. reflexivity.
Defined.

(** ** The visitor form and the staff dashboard *)

Lemma requiredString_some (v : option string) (p : string) :
  requiredString v = Some p -> v = Some p /\ p <> "".
Proof.
  destruct v as [[|c v]|]; cbn; intros H; try discriminate H.
  injection H as <-. split; [reflexivity|discriminate].
Qed.

(** X24.  What the visitor form sends always carries a name, an email and a
    purpose that are not empty, so the server never answers it with the
    failed purpose validation, and in demo mode the stored call has the
    purpose: the call without purpose of demo mode cannot come from the
    form. *)
Theorem form_requests_carry_purpose (name email purpose : option string)
  (e : ClientEmit) :
  In e (handleConversationSubmit name email purpose) ->
  exists n m p,
    e = emit_start_conversation n m p /\ n <> "" /\ m <> "" /\ p <> "" /\
    forall s sid env,
      snd (receive s sid env e)
      <> startFailed sid "Call validation failed: purpose" /\
      (readyState s <> 1 ->
       option_map DemoCall.purpose
         (JsMap.get sid (demoCalls (fst (receive s sid env e))))
       = Some (Some p)).
Proof.
  unfold handleConversationSubmit.
  destruct (requiredString name) as [n|] eqn:Hn; [|intros []].
  destruct (requiredString email) as [m|] eqn:Hm; [|intros []].
  destruct (requiredString purpose) as [p|] eqn:Hp; [|intros []].
  intros [<-|[]].
  apply requiredString_some in Hn, Hm, Hp.
  destruct Hn as [_ Hn], Hm as [_ Hm], Hp as [_ Hp].
  exists n, m, p. repeat (split; [assumption || reflexivity|]).
  intros s sid env. cbn [receive handle]. unfold on_start_conversation.
  assert (Hreq : requiredString (Some p) = Some p)
    by (destruct p; [contradiction|reflexivity]).
  destruct (readyState s =? 1)%Z eqn:Hready.
  - split; [|intros H; apply Z.eqb_eq in Hready; contradiction].
    unfold start_mongo. rewrite Hreq.
    destruct (find _ (users s)) as [u|];
      match goal with
      | |- context [existsb ?q ?l] => destruct (existsb q l)
      end; cbn; discriminate.
  - split; [cbn; discriminate|].
    intros _. unfold start_demo. cbn. now rewrite get_set_same.
Qed.

Lemma form_requests_carry_purpose_witness :
  exists n m p,
    emit_start_conversation "Vic" "vic@rexbot.test" "Support"
    = emit_start_conversation n m p /\ n <> "" /\ m <> "" /\ p <> "" /\
    forall s sid env,
      snd (receive s sid env
             (emit_start_conversation "Vic" "vic@rexbot.test" "Support"))
      <> startFailed sid "Call validation failed: purpose" /\
      (readyState s <> 1 ->
       option_map DemoCall.purpose
         (JsMap.get sid
            (demoCalls
               (fst (receive s sid env
                       (emit_start_conversation "Vic" "vic@rexbot.test"
                          "Support")))))
       = Some (Some p)).
Proof.
  apply (form_requests_carry_purpose (Some "Vic") (Some "vic@rexbot.test")
           (Some "Support")).
  now left.
Defined.

(** X25.  A decision made on the dashboard of the staff member who won the
    call is lost.  The accept sent by the dashboard succeeds and call-started
    comes back; handling it, the dashboard replaces its current call by the
    payload, which has a callId but no id; the call-decision it then sends
    has no call id, the server stores nothing and answers nothing, and the
    call stays in progress. *)
Theorem dashboard_decision_is_lost (s : Server) (sid : SocketId)
  (env env' : Env) (callId decision notes : string) (oid staff : Id)
  (c : Call.t) (u : User.t) (d : Dashboard) :
  castObjectId callId = Some oid ->
  findById oid (calls s) = Some c ->
  Call.status c = Waiting ->
  JsMap.get sid (connectedUsers s) = Some u ->
  User.role u = "staff" ->
  castObjectId (User._id u) = Some staff ->
  exists s1 outs,
    receiveAll s sid env (snd (acceptCall d callId)) = (s1, outs) /\
    In (ToSocket sid, call_started callId (Call.clientId c)) outs /\
    let d2 := handleCallStarted (fst (acceptCall d callId)) callId
                (Call.clientId c) in
    snd (makeDecision d2 decision notes)
    = [emit_call_decision None decision notes] /\
    receiveAll s1 sid env' (snd (makeDecision d2 decision notes)) = (s1, []) /\
    option_map Call.status (findById oid (calls s1)) = Some InProgress.
Proof.
  intros Hcast Hfind Hst Hu Hrole Hstaff.
  destruct (accept_success s sid env callId oid staff c u
              Hcast Hfind Hst Hu Hrole Hstaff)
    as (s1 & outs & Hrun & Hin & Hfind1 & _ & _).
  exists s1, outs. cbn [acceptCall snd fst receiveAll receive handle].
  rewrite Hrun, app_nil_r.
  split; [reflexivity|]. split; [exact Hin|].
  cbn. rewrite Hfind1. repeat split.
Qed.

Lemma dashboard_decision_is_lost_witness :
  exists s1 outs,
    receiveAll ringing "S1" (at_ 4000)
      (snd (acceptCall (mkDashboard None) firstCall)) = (s1, outs) /\
    In (ToSocket "S1", call_started firstCall (Call.clientId ringingCall))
       outs /\
    let d2 := handleCallStarted (fst (acceptCall (mkDashboard None) firstCall))
                firstCall (Call.clientId ringingCall) in
    snd (makeDecision d2 "accepted" "follow-up needed")
    = [emit_call_decision None "accepted" "follow-up needed"] /\
    receiveAll s1 "S1" (at_ 65500)
      (snd (makeDecision d2 "accepted" "follow-up needed")) = (s1, []) /\
    option_map Call.status (findById firstCall (calls s1)) = Some InProgress.
Proof.
  apply (dashboard_decision_is_lost ringing "S1" (at_ 4000) (at_ 65500)
           firstCall "accepted" "follow-up needed" firstCall (newObjectId 1)
           ringingCall (loggedIn 2000 alice) (mkDashboard None));
    vm_compute; reflexivity.
Defined.

(** X26.  A decision recorded after the visitor has gone is stored all the
    same, and nobody but the staff member hears of it: when no connected
    socket is registered under the account of the caller, the decision of
    the bound staff member completes the call and the only event is
    decision-saved to the sender. *)
Theorem decision_without_visitor (s : Server) (sid : SocketId) (env : Env)
  (callId decision notes : string) (oid : Id) (c : Call.t) (u : User.t)
  (d : Decision) (t0 : Date) :
  JsMap.get sid (connectedUsers s) = Some u ->
  User.role u = "staff" ->
  castObjectId callId = Some oid ->
  findById oid (calls s) = Some c ->
  Call.staffId c = Some (User._id u) ->
  decision_of_string decision = Some d ->
  Call.startTime c = Some t0 ->
  (forall k x, In (k, x) (connectedUsers s) ->
               User._id x <> Call.clientId c) ->
  snd (handle s sid env (call_decision callId decision notes))
  = [(ToSocket sid, decision_saved callId decision)] /\
  findById oid
    (calls (fst (handle s sid env (call_decision callId decision notes))))
  = Some (decided d notes (now env) ((now env - t0) / 1000) c).
Proof.
  intros Hu Hrole Hcast Hfind Hown Hd Ht0 Hgone.
  cbn [handle]. unfold on_call_decision. rewrite Hu, Hrole. cbn.
  rewrite Hcast, Hfind, Hown, String.eqb_refl, Hd, Ht0. cbn.
  destruct (JsMap.findKey _ _) as [k|] eqn:Hk.
  - apply findKey_some in Hk. destruct Hk as (x & Hin & Hx).
    apply String.eqb_eq in Hx. now destruct (Hgone k x Hin).
  - cbn. split; [reflexivity|].
    pose proof (findById_id _ _ _ Hfind) as Hid. rewrite Hid.
    apply findById_updateCall_same; auto using decided_id.
Qed.

Lemma decision_without_visitor_witness :
  let gone := fst (handle talking "V" (at_ 5000) disconnect) in
  snd (handle gone "S1" (at_ 65500)
         (call_decision firstCall "accepted" "left early"))
  = [(ToSocket "S1", decision_saved firstCall "accepted")] /\
  findById firstCall
    (calls (fst (handle gone "S1" (at_ 65500)
                   (call_decision firstCall "accepted" "left early"))))
  = Some (decided DAccepted "left early" (now (at_ 65500))
            ((now (at_ 65500) - 4000) / 1000)
            (acceptedBy (newObjectId 1) 4000 ringingCall)).
Proof.
  apply (decision_without_visitor
           (fst (handle talking "V" (at_ 5000) disconnect)) "S1" (at_ 65500)
           firstCall "accepted" "left early" firstCall
           (acceptedBy (newObjectId 1) 4000 ringingCall)
           (loggedIn 2000 alice) DAccepted 4000);
    try (vm_compute; reflexivity).
  intros k x Hin. vm_compute in Hin.
  destruct Hin as [H|[H|[]]]; injection H as _ <-; discriminate.
Defined.

(** ** Two accepts interleaved at the await *)

(** X27.  The accept handler checks the status on the document it fetched
    before its [await].  When two registered staff sockets have both fetched
    a waiting call before either commits, both commits go through: both
    sockets receive call-started, and the stored call ends up bound to the
    staff member whose commit came second, with the start time of that
    commit. *)
Theorem interleaved_accepts_both_succeed (s : Server) (a b : SocketId)
  (envA envB : Env) (callId : string) (oid staffA staffB : Id) (c : Call.t)
  (ua ub : User.t) :
  castObjectId callId = Some oid ->
  findById oid (calls s) = Some c ->
  Call.status c = Waiting ->
  JsMap.get a (connectedUsers s) = Some ua -> User.role ua = "staff" ->
  castObjectId (User._id ua) = Some staffA ->
  JsMap.get b (connectedUsers s) = Some ub -> User.role ub = "staff" ->
  castObjectId (User._id ub) = Some staffB ->
  accept_fetch s a callId = Fetched ua (Some c) /\
  accept_fetch s b callId = Fetched ub (Some c) /\
  let r1 := accept_commit s a envA callId ua (Some c) in
  let r2 := accept_commit (fst r1) b envB callId ub (Some c) in
  In (ToSocket a, call_started callId (Call.clientId c)) (snd r1) /\
  In (ToSocket b, call_started callId (Call.clientId c)) (snd r2) /\
  findById oid (calls (fst r2))
  = Some (acceptedBy staffB (now envB) (acceptedBy staffA (now envA) c)).
Proof.
  intros Hcast Hfind Hst Hua Hra Hsa Hub Hrb Hsb.
  pose proof (findById_id _ _ _ Hfind) as Hid.
  split; [unfold accept_fetch; now rewrite Hua, Hra, Hcast, Hfind|].
  split; [unfold accept_fetch; now rewrite Hub, Hrb, Hcast, Hfind|].
  unfold accept_commit. rewrite Hst, Hsa, Hsb, Hid. cbn [isWaiting negb].
  assert (H1 : findById oid
                 (updateCall oid (acceptedBy staffA (now envA)) (calls s))
               = Some (acceptedBy staffA (now envA) c))
    by (apply findById_updateCall_same; auto using acceptedBy_id).
  destruct (JsMap.findKey _ (waitingCalls (set_calls _ s))) as [k|];
    cbn [fst snd calls set_calls set_waitingCalls waitingCalls];
    match goal with
    | |- context [JsMap.findKey ?p ?m] => destruct (JsMap.findKey p m)
    end;
    cbn [fst snd calls set_calls set_waitingCalls In];
    (split; [tauto|]); (split; [tauto|]);
    apply findById_updateCall_same; auto using acceptedBy_id.
Qed.

Lemma interleaved_accepts_both_succeed_witness :
  accept_fetch ringing "S1" firstCall
  = Fetched (loggedIn 2000 alice) (Some ringingCall) /\
  accept_fetch ringing "S2" firstCall
  = Fetched (loggedIn 2001 bob) (Some ringingCall) /\
  let r1 := accept_commit ringing "S1" (at_ 4000) firstCall
              (loggedIn 2000 alice) (Some ringingCall) in
  let r2 := accept_commit (fst r1) "S2" (at_ 4001) firstCall
              (loggedIn 2001 bob) (Some ringingCall) in
  In (ToSocket "S1", call_started firstCall (Call.clientId ringingCall))
     (snd r1) /\
  In (ToSocket "S2", call_started firstCall (Call.clientId ringingCall))
     (snd r2) /\
  findById firstCall (calls (fst r2))
  = Some (acceptedBy (newObjectId 2) (now (at_ 4001))
            (acceptedBy (newObjectId 1) (now (at_ 4000)) ringingCall)).
Proof.
  apply (interleaved_accepts_both_succeed ringing "S1" "S2" (at_ 4000)
           (at_ 4001) firstCall firstCall (newObjectId 1) (newObjectId 2)
           ringingCall (loggedIn 2000 alice) (loggedIn 2001 bob));
    vm_compute; reflexivity.
Defined.

(** ** The health report *)

Lemma keys_set {V : Type} (k : string) (v : V) (m : JsMap.t V) :
  NoDup (map fst m) -> NoDup (map fst (JsMap.set k v m)) /\
  forall x, In x (map fst (JsMap.set k v m)) <-> x = k \/ In x (map fst m).
Proof.
  induction m as [|[k0 v0] m IH]; simpl; intros Hnd.
  - split; [repeat constructor; tauto|]. intros x. intuition.
  - inversion Hnd as [|? ? Hnotin Hnd']; subst.
    destruct (k =? k0) eqn:E; simpl.
    + apply String.eqb_eq in E. subst k0. split; [exact Hnd|].
      intros x. intuition.
    + apply String.eqb_neq in E. destruct (IH Hnd') as [H1 H2]. split.
      * constructor; [|exact H1]. rewrite H2. intros [H|H]; congruence.
      * intros x. rewrite H2. intuition.
Qed.

Lemma keys_delete {V : Type} (k : string) (m : JsMap.t V) :
  NoDup (map fst m) -> NoDup (map fst (JsMap.delete k m)) /\
  forall x, In x (map fst (JsMap.delete k m)) <-> x <> k /\ In x (map fst m).
Proof.
  induction m as [|[k0 v0] m IH]; simpl; intros Hnd.
  - split; [constructor|]. intros x. tauto.
  - inversion Hnd as [|? ? Hnotin Hnd']; subst.
    destruct (IH Hnd') as [H1 H2].
    destruct (k =? k0) eqn:E; simpl.
    + apply String.eqb_eq in E. subst k0. split; [exact H1|].
      intros x. rewrite H2. split; [tauto|].
      intros [Hne [H|H]]; [congruence|tauto].
    + apply String.eqb_neq in E. split.
      * constructor; [|exact H1]. rewrite H2. tauto.
      * intros x. rewrite H2. split.
        -- intros [<-|H]; [split; [congruence|now left]|tauto].
        -- tauto.
Qed.

Lemma handle_maps (s : Server) (sid : SocketId) (env : Env) (ev : Event) :
  MapsChange sid s (fst (handle s sid env ev)).
Proof.
  destruct ev as [|email password|name email purpose|callId
                 |kind target payload|callId decision notes|
                 |missing|missing];
    cbn [handle fst].
  - now apply MapsKept.
  - unfold on_staff_login. branches; try (now apply MapsKept).
    eapply Registered; reflexivity.
  - unfold on_start_conversation.
    destruct (readyState s =? 1)%Z.
    + unfold start_mongo.
      destruct (find _ (users s)) as [u|];
        match goal with
        | |- context [existsb ?p ?l] => destruct (existsb p l)
        end; try (now apply MapsKept);
        (destruct (requiredString purpose); [|now apply MapsKept]);
        eapply Queued; reflexivity.
    + eapply Registered; reflexivity.
  - unfold on_accept_call, accept_fetch, accept_commit.
    branches; try (now apply MapsKept).
    eapply Taken; reflexivity.
  - now apply MapsKept.
  - unfold on_call_decision. branches; now apply MapsKept.
  - destruct (disconnect_connected
                (set_sockets (filter (fun x => negb (x =? sid)) (sockets s)) s)
                sid env) as [H1 H2].
    now apply Left.
  - destruct missing; now apply MapsKept.
  - destruct missing; now apply MapsKept.
Qed.

Lemma MapsChange_tidy (sid : SocketId) (s s' : Server) :
  MapsChange sid s s' -> tidyMaps s -> tidyMaps s'.
Proof.
  unfold tidyMaps.
  intros [-> -> | u -> -> | u c -> -> | k -> -> | -> ->] (Hc & Hw & Hincl).
  - tauto.
  - destruct (keys_set sid u (connectedUsers s) Hc) as [H1 H2].
    repeat split; try assumption.
    intros x Hx. apply H2. right. now apply Hincl.
  - destruct (keys_set sid u (connectedUsers s) Hc) as [H1 H2].
    destruct (keys_set sid c (waitingCalls s) Hw) as [H3 H4].
    repeat split; try assumption.
    intros x Hx. apply H2. apply H4 in Hx.
    destruct Hx as [->|Hx]; [now left|right; now apply Hincl].
  - destruct (keys_delete k (waitingCalls s) Hw) as [H3 H4].
    repeat split; try assumption.
    intros x Hx. apply H4 in Hx. now apply Hincl.
  - destruct (keys_delete sid (connectedUsers s) Hc) as [H1 H2].
    destruct (keys_delete sid (waitingCalls s) Hw) as [H3 H4].
    repeat split; try assumption.
    intros x Hx. apply H4 in Hx. apply H2.
    split; [tauto|]. now apply Hincl.
Qed.

Lemma delete_length {V : Type} (k : string) (m : JsMap.t V) :
  NoDup (map fst m) -> In k (map fst m) ->
  S (List.length (JsMap.delete k m)) = List.length m.
Proof.
  induction m as [|[k0 v0] m IH]; simpl; [tauto|].
  intros Hnd. inversion Hnd as [|? ? Hnotin Hnd']; subst.
  destruct (k =? k0) eqn:E.
  - apply String.eqb_eq in E. subst k0. intros _. f_equal.
    clear IH Hnd Hnd'. induction m as [|[k1 v1] m IH]; [reflexivity|].
    simpl in Hnotin |- *. destruct (k =? k1) eqn:E1.
    + apply String.eqb_eq in E1. subst k1. tauto.
    + simpl. f_equal. apply IH. tauto.
  - apply String.eqb_neq in E. intros [H|H]; [congruence|].
    simpl. f_equal. now apply IH.
Qed.

Lemma get_in_keys {V : Type} (k : string) (m : JsMap.t V) :
  JsMap.get k m <> None -> In k (map fst m).
Proof.
  induction m as [|[k0 v0] m IH]; simpl; [tauto|].
  destruct (k =? k0) eqn:E.
  - apply String.eqb_eq in E. now left.
  - intros H. right. now apply IH.
Qed.

(** X28.  Between socket events handled one after the other, each from its
    first statement to its last, every socket that has a waiting call is a
    registered socket and the health report counts no more waiting calls
    than connected users: if the two maps are tidy (no key twice, every
    waiting key registered), which they are when the server starts, they are
    after any such run.  Inside the disconnect handler this does not hold:
    while the handler of a socket with a waiting call is stopped at [await
    call.save()], a health request sees one connected user less and the
    same number of waiting calls, so it reports more waiting calls than
    connected users whenever every registered socket had one. *)
Theorem health_counts_are_ordered (s : Server)
  (evs : list (SocketId * Env * Event)) :
  tidyMaps s ->
  let s' := fst (run s evs) in
  tidyMaps s' /\
  (snd (health s') <= fst (health s'))%nat /\
  (forall sid env s1,
      disconnect_await s' sid env = Some s1 ->
      S (fst (health s1)) = fst (health s') /\
      snd (health s1) = snd (health s')).
Proof.
  intros Htidy s'.
  assert (H : tidyMaps s').
  { unfold s'. clear s'. revert s Htidy. apply (run_invariant tidyMaps).
    intros s sid env ev. apply MapsChange_tidy with (sid := sid).
    apply handle_maps. }
  split; [exact H|].
  destruct H as (Hc & Hw & Hincl). split.
  - unfold health. cbn [fst snd].
    rewrite <- (length_map fst (waitingCalls _)).
    rewrite <- (length_map fst (connectedUsers _)).
    now apply NoDup_incl_length.
  - intros sid env s1. unfold disconnect_await, health.
    destruct (JsMap.get sid (connectedUsers s')) as [user|] eqn:Hu.
    + destruct (User.role user =? "staff");
        cbn [waitingCalls connectedUsers set_connectedUsers set_users];
        (destruct (JsMap.get sid (waitingCalls s')); [|discriminate]);
        intros Heq; injection Heq as <-;
        cbn [fst snd waitingCalls connectedUsers set_connectedUsers
               set_users];
        (split; [|reflexivity]); apply delete_length; try exact Hc;
        apply get_in_keys; rewrite Hu; discriminate.
    + destruct (JsMap.get sid (waitingCalls s')) eqn:Hcall; [|discriminate].
      exfalso.
      assert (Hin : In sid (map fst (connectedUsers s'))).
      { apply Hincl. apply get_in_keys. rewrite Hcall. discriminate. }
      clear - Hu Hin. induction (connectedUsers s') as [|[k0 v0] m IH];
        simpl in *; [tauto|].
      destruct (sid =? k0) eqn:E; [discriminate|].
      apply String.eqb_neq in E. destruct Hin as [H|H]; [congruence|].
      now apply IH.
Qed.

(** After a morning of calls the counts are in order; while the lone
    visitor's disconnect is stopped at its [await] the report is 0 connected
    users and 1 waiting call. *)
Lemma health_counts_are_ordered_witness :
  (snd (health (fst (run office (morning ++ wholeCall ++ queueing)%list)))
   <= fst (health (fst (run office
                          (morning ++ wholeCall ++ queueing)%list))))%nat /\
  exists s1,
    disconnect_await loneVisitor "V" (at_ 4000) = Some s1 /\
    health loneVisitor = (1%nat, 1%nat) /\ health s1 = (0%nat, 1%nat).
Proof.
  assert (Htidy : tidyMaps office).
  { repeat split; try constructor. intros x []. }
  split.
  - exact (proj1 (proj2 (health_counts_are_ordered office
                           (morning ++ wholeCall ++ queueing)%list Htidy))).
  - pose proof (proj2 (proj2 (health_counts_are_ordered office
                                [("V", at_ 3000, connection);
                                 ("V", at_ 3001,
                                  start_conversation "Vic" "vic@rexbot.test"
                                    (Some "Support"))] Htidy))
                  "V" (at_ 4000)) as Hawait.
    cbv zeta in Hawait. fold loneVisitor in Hawait.
    destruct (disconnect_await loneVisitor "V" (at_ 4000)) as [s1|] eqn:E;
      [|vm_compute in E; discriminate E].
    exists s1. split; [reflexivity|]. split; [reflexivity|].
    destruct (Hawait s1 eq_refl) as [H1 H2].
    change (health loneVisitor) with (1%nat, 1%nat) in H1, H2.
    unfold health in H1, H2 |- *. cbn [fst snd] in H1, H2.
    injection H1 as H1. now rewrite H1, H2.
Defined.
